(** * zotero-worker: a WebDAV front end over a flat blob store

    Shallow embedding of [src/worker.js] and the properties of its
    request handler.

    JavaScript strings are sequences of UTF-16 code units; they are
    modelled as lists of [N].  The R2 bucket is a finite map from keys to
    stored objects.  Handlers are written in a small monad that threads
    the bucket and records every bucket call, and that can stop with an
    uncaught exception.  Failures of the store itself (network, storage)
    are not modelled: a bucket call fails only where the store rejects its
    argument. *)

From Stdlib Require Import String Ascii.
From stdpp Require Import gmap list fin_maps pretty.

Local Open Scope N_scope.

(** ** Strings *)

Abbreviation jsstring := (list N).

(** A string literal of the source. *)
Definition js (s : string) : jsstring :=
  N_of_ascii <$> list_ascii_of_string s.

(** [s.startsWith(p)] *)
Fixpoint startsWith (s p : jsstring) {struct p} : bool :=
  match p, s with
  | [], _ => true
  | _ :: _, [] => false
  | c :: p', d :: s' => (c =? d) && startsWith s' p'
  end.

(** [s.endsWith(p)] *)
Definition endsWith (s p : jsstring) : bool :=
  startsWith (reverse s) (reverse p).

(** [s.indexOf(c)] for a one-unit pattern; [None] stands for [-1]. *)
Fixpoint indexOf (s : jsstring) (c : N) : option nat :=
  match s with
  | [] => None
  | d :: s' => if d =? c then Some 0%nat else S <$> indexOf s' c
  end.

(** [s.replace(/^p/, '')] for a literal pattern [p] anchored at the start. *)
Definition replacePrefix (s p : jsstring) : jsstring :=
  if startsWith s p then drop (length p) s else s.

(** [s.replace(/^\/+/, '')]: the greedy run of leading slashes is removed. *)
Fixpoint replaceLeadingSlashes (s : jsstring) : jsstring :=
  match s with
  | c :: s' => if c =? 47 then replaceLeadingSlashes s' else s
  | [] => []
  end.

(** JavaScript truthiness of a value that is a string or [null]. *)
Definition truthy (v : option jsstring) : bool :=
  match v with
  | None | Some [] => false
  | Some (_ :: _) => true
  end.

(** ** decodeURIComponent

    The built-in of the language (ECMA-262, abstract operation Decode with
    an empty preserve set).  [None] is the thrown URIError. *)

Definition hexDigit (c : N) : option N :=
  if (48 <=? c) && (c <=? 57) then Some (c - 48)
  else if (65 <=? c) && (c <=? 70) then Some (c - 55)
  else if (97 <=? c) && (c <=? 102) then Some (c - 87)
  else None.

(** An escape [%XY] at the head of [s]: its octet and the rest. *)
Definition parseEscape (s : jsstring) : option (N * jsstring) :=
  match s with
  | 37 :: h :: l :: rest =>
      match hexDigit h, hexDigit l with
      | Some a, Some b => Some (16 * a + b, rest)
      | _, _ => None
      end
  | _ => None
  end.

(** Number of leading 1 bits of an octet. *)
Definition leadingOnes (b : N) : nat :=
  if b <? 128 then 0
  else if b <? 192 then 1
  else if b <? 224 then 2
  else if b <? 240 then 3
  else if b <? 248 then 4
  else 5.

(** The [n] continuation escapes that follow a lead octet. *)
Fixpoint continuationBytes (n : nat) (s : jsstring) : option (list N * jsstring) :=
  match n with
  | O => Some ([], s)
  | S n' =>
      '(b, rest) ← parseEscape s;
      '(bs, rest') ← continuationBytes n' rest;
      Some (b :: bs, rest')
  end.

Definition isContinuation (b : N) : bool := (128 <=? b) && (b <? 192).

(** The code point of a well-formed UTF-8 sequence [lead :: conts]. *)
Definition utf8CodePoint (lead : N) (conts : list N) : option N :=
  if forallb isContinuation conts then
    let payload := fold_left (fun v b => v * 64 + (b - 128)) conts in
    match conts with
    | [_] =>
        let v := payload (lead - 192) in
        if 128 <=? v then Some v else None
    | [_; _] =>
        let v := payload (lead - 224) in
        if (2048 <=? v) && negb ((55296 <=? v) && (v <=? 57343)) then Some v else None
    | [_; _; _] =>
        let v := payload (lead - 240) in
        if (65536 <=? v) && (v <=? 1114111) then Some v else None
    | _ => None
    end
  else None.

Definition UTF16EncodeCodePoint (v : N) : jsstring :=
  if v <=? 65535 then [v]
  else [(v - 65536) / 1024 + 55296; (v - 65536) mod 1024 + 56320].

Fixpoint Decode (fuel : nat) (s : jsstring) : option jsstring :=
  match fuel with
  | O => None
  | S fuel' =>
      match s with
      | [] => Some []
      | c :: tl =>
          if c =? 37 then
            '(b, rest) ← parseEscape s;
            match leadingOnes b with
            | 0%nat => (b ::.) <$> Decode fuel' rest
            | 1%nat => None
            | S (S (S (S (S _)))) => None
            | S n =>
                '(conts, rest') ← continuationBytes n rest;
                v ← utf8CodePoint b conts;
                (UTF16EncodeCodePoint v ++.) <$> Decode fuel' rest'
            end
          else (c ::.) <$> Decode fuel' tl
      end
  end.

Definition decodeURIComponent (s : jsstring) : option jsstring :=
  Decode (S (length s)) s.

(** ** The runtime

    Built-ins of the Workers runtime the handler calls.  They are not part
    of the repository and are taken as parameters. *)

Class Platform := {
  (** [atob(s)]; [None] when it throws. *)
  atob : jsstring → option jsstring;
  (** [new URL(u).pathname]; [None] when the constructor throws. *)
  URL_pathname : jsstring → option jsstring;
  (** [new URL(p, base).pathname] for a path-absolute [p] and a parsed
      [base]: the parser cannot fail on such input. *)
  URL_pathname_from : jsstring → jsstring → jsstring;
  (** [new Date(t).toUTCString()] *)
  toUTCString : Z → jsstring;
}.

(** ** The bucket *)

Record Stored := {
  s_body : list Byte.byte;
  s_etag : jsstring;
  s_uploaded : Z;
  s_httpMetadata : list (jsstring * jsstring);
}.

(** What [get], [put] and [list] hand back for one object. *)
Record R2Object := {
  key : jsstring;
  size : N;
  etag : jsstring;
  uploaded : Z;
  body : list Byte.byte;
  httpMetadata : list (jsstring * jsstring);
}.

Definition toObject (k : jsstring) (o : Stored) : R2Object :=
  {| key := k; size := N.of_nat (length (s_body o)); etag := s_etag o;
     uploaded := s_uploaded o; body := s_body o;
     httpMetadata := s_httpMetadata o |}.

(** The stored objects whose key starts with [prefix]. *)
Definition objectsUnder (m : gmap jsstring Stored) (prefix : jsstring) : list R2Object :=
  (λ kv, toObject kv.1 kv.2) <$>
    filter (λ kv, startsWith kv.1 prefix = true) (map_to_list m).

(** The store assigns the etag of a written object and chooses what one
    [list] call returns and in which order: objects stored under the
    prefix, each at most once and at most 1000 of them (the limit of one
    call when none is given); all of them when there are no more than
    that. *)
Class R2 := {
  etagOf : list Byte.byte → jsstring;
  listing : gmap jsstring Stored → jsstring → list R2Object;
  listing_stored : ∀ m prefix, listing m prefix ⊆+ objectsUnder m prefix;
  listing_limit : ∀ m prefix, (length (listing m prefix) ≤ 1000)%nat;
  listing_complete : ∀ m prefix,
    (length (objectsUnder m prefix) ≤ 1000)%nat →
    listing m prefix ≡ₚ objectsUnder m prefix;
}.

Inductive BucketCall :=
  | CallGet (k : jsstring)
  | CallPut (k : jsstring) (b : list Byte.byte)
  | CallDelete (k : jsstring)
  | CallList (prefix : jsstring).

Record World := {
  bucket : gmap jsstring Stored;
  clock : Z;
  trace : list BucketCall;
}.

Definition called (c : BucketCall) (w : World) : World :=
  {| bucket := bucket w; clock := clock w; trace := trace w ++ [c] |}.

(** ** The monad of handlers *)

Inductive exn := URIError | TypeError.

Definition IO (A : Type) : Type := World → (exn + A) * World.

Definition ret {A} (a : A) : IO A := λ w, (inr a, w).
Definition throw {A} (e : exn) : IO A := λ w, (inl e, w).
Definition bind {A B} (m : IO A) (k : A → IO B) : IO B :=
  λ w, match m w with
       | (inr a, w') => k a w'
       | (inl e, w') => (inl e, w')
       end.
Definition orThrow {A} (e : exn) (o : option A) : IO A :=
  match o with Some a => ret a | None => throw e end.

Notation "x <~ m ;; k" := (bind m (λ x, k))
  (at level 100, m at next level, right associativity).

Fixpoint forEach {A B} (f : A → IO B) (l : list A) : IO (list B) :=
  match l with
  | [] => ret []
  | a :: l' => b <~ f a ;; bs <~ forEach f l' ;; ret (b :: bs)
  end.

Section Bucket.
Context `{R2}.

Definition BUCKET_get (k : jsstring) : IO (option R2Object) :=
  λ w, (inr (toObject k <$> bucket w !! k), called (CallGet k) w).

(** [put] takes the bytes of a stream only when the stream has a known
    length; called with a stream of unknown length it throws a TypeError
    and stores nothing. *)
Definition BUCKET_put (k : jsstring) (b : list Byte.byte) (lengthKnown : bool)
    (meta : list (jsstring * jsstring)) : IO R2Object :=
  λ w,
    if lengthKnown then
      let o := {| s_body := b; s_etag := etagOf b; s_uploaded := clock w;
                  s_httpMetadata := meta |} in
      (inr (toObject k o),
       {| bucket := <[k := o]> (bucket w); clock := clock w;
          trace := trace w ++ [CallPut k b] |})
    else (inl TypeError, called (CallPut k b) w).

Definition BUCKET_delete (k : jsstring) : IO unit :=
  λ w,
    (inr (),
     {| bucket := delete k (bucket w); clock := clock w;
        trace := trace w ++ [CallDelete k] |}).

Definition BUCKET_list (prefix : jsstring) : IO (list R2Object) :=
  λ w, (inr (listing (bucket w) prefix), called (CallList prefix) w).
End Bucket.

Definition Date_now : IO Z := λ w, (inr (clock w), w).

(** ** Requests and responses *)

(** The parts of a request the handler reads.  [Authorization],
    [Destination] and [Depth] are [request.headers.get(...)]: [None] is
    [null].  [requestBody] is the content of [request.body], and
    [bodyLengthKnown] tells whether that stream has a known length (the
    request came with a [Content-Length], or has no body) or not (chunked
    transfer). *)
Record Request := {
  method : jsstring;
  url : jsstring;
  Authorization : option jsstring;
  Destination : option jsstring;
  Depth : option jsstring;
  requestBody : list Byte.byte;
  bodyLengthKnown : bool;
}.

Inductive BodyInit :=
  | BodyNull
  | BodyText (t : jsstring)
  | BodyStream (b : list Byte.byte).

Record Response := {
  responseBody : BodyInit;
  status : N;
  headers : list (string * jsstring);
}.

Record Env := {
  WEBDAV_USER : jsstring;
  WEBDAV_PASS : jsstring;
}.

(** [a === b] on strings. *)
Definition strictEq (a b : jsstring) : bool := bool_decide (a = b).

Definition quote : jsstring := [34].
Definition nl : jsstring := [10].

(** [parts.join(sep)] *)
Fixpoint join (sep : jsstring) (parts : list jsstring) : jsstring :=
  match parts with
  | [] => []
  | [p] => p
  | p :: ps => p ++ sep ++ join sep ps
  end.

(** The expression that turns a pathname under the namespace into a key
    (lines 20-22, 114-116 and 143-145):
    [decodeURIComponent(pathname.replace(/^\/zotero\//, '').replace(/^\/+/, ''))] *)
Definition pathToKey (pathname : jsstring) : option jsstring :=
  decodeURIComponent
    (replaceLeadingSlashes (replacePrefix pathname (js "/zotero/"))).

(** The same step in the order the specification words it: percent-decode
    the remainder, then strip the leading slashes. *)
Definition specPathToKey (pathname : jsstring) : option jsstring :=
  replaceLeadingSlashes <$>
    decodeURIComponent (replacePrefix pathname (js "/zotero/")).

(** [response.headers.get(name)] *)
Fixpoint lookupHeader (name : string) (hs : list (string * jsstring)) : option jsstring :=
  match hs with
  | [] => None
  | (n, v) :: hs' => if bool_decide (n = name) then Some v else lookupHeader name hs'
  end.

(** The argument of [buildPropResponse]. *)
Record PropArgs := {
  href : jsstring;
  isCollection : bool;
  obj : option R2Object;
}.

Section Worker.
Context `{Platform} `{R2}.

(** *** AUTH *)

Definition checkAuth (authHeader : jsstring) (env : Env) : bool :=
  if negb (startsWith authHeader (js "Basic ")) then false
  else
    let encoded := drop 6 authHeader in
    match atob encoded with
    | None => false
    | Some decoded =>
        match indexOf decoded 58 with
        | None => false
        | Some sep =>
            let user := take sep decoded in
            let pass := drop (sep + 1) decoded in
            strictEq user (WEBDAV_USER env) && strictEq pass (WEBDAV_PASS env)
        end
    end.

(** The guard of line 5, negated: the request goes on to routing. *)
Definition authenticated (request : Request) (env : Env) : bool :=
  truthy (Authorization request)
  && checkAuth (default [] (Authorization request)) env.

(** The ways an [Authorization] header can be wrong. *)
Inductive Rejected (env : Env) : option jsstring → Prop :=
  | rejected_missing : Rejected env None
  | rejected_scheme a :
      ¬ js "Basic " `prefix_of` a → Rejected env (Some a)
  | rejected_base64 e :
      atob e = None → Rejected env (Some (js "Basic " ++ e))
  | rejected_no_colon e d :
      atob e = Some d → 58 ∉ d → Rejected env (Some (js "Basic " ++ e))
  | rejected_mismatch e u p :
      atob e = Some (u ++ 58 :: p) → 58 ∉ u →
      (u, p) ≠ (WEBDAV_USER env, WEBDAV_PASS env) →
      Rejected env (Some (js "Basic " ++ e)).

(** The ways the [Destination] of a MOVE or COPY is turned down, with the
    status each one is answered with. *)
Inductive DestinationRefused : option jsstring → N → Prop :=
  | destination_missing d :
      truthy d = false → DestinationRefused d 400
  | destination_outside dest pathname :
      dest ≠ [] → URL_pathname dest = Some pathname →
      startsWith pathname (js "/zotero/") = false →
      DestinationRefused (Some dest) 403.

(** *** HANDLERS *)

Definition handleGetHead (env : Env) (key : jsstring) (method : jsstring)
    : IO Response :=
  obj <~ BUCKET_get key ;;
  match obj with
  | None => ret {| responseBody := BodyText (js "Not Found"); status := 404; headers := [] |}
  | Some obj =>
      let headers :=
        [("Content-Length"%string, js (pretty (size obj)));
         ("ETag"%string, etag obj)] in
      if strictEq method (js "HEAD")
      then ret {| responseBody := BodyNull; status := 200; headers := headers |}
      else ret {| responseBody := BodyStream (body obj); status := 200; headers := headers |}
  end.

Definition handlePut (env : Env) (key : jsstring) (request : Request)
    : IO Response :=
  _ <~ BUCKET_put key (requestBody request) (bodyLengthKnown request) [] ;;
  ret {| responseBody := BodyNull; status := 201; headers := [] |}.

Definition handleMove (env : Env) (srcKey : jsstring) (request : Request)
    : IO Response :=
  let dest := Destination request in
  if negb (truthy dest)
  then ret {| responseBody := BodyText (js "Bad Request"); status := 400; headers := [] |}
  else
    destPathname <~ orThrow TypeError (URL_pathname (default [] dest)) ;;
    if negb (startsWith destPathname (js "/zotero/"))
    then ret {| responseBody := BodyText (js "Forbidden"); status := 403; headers := [] |}
    else
      destKey <~ orThrow URIError (pathToKey destPathname) ;;
      obj <~ BUCKET_get srcKey ;;
      match obj with
      | None => ret {| responseBody := BodyText (js "Not Found"); status := 404; headers := [] |}
      | Some obj =>
          _ <~ BUCKET_put destKey (body obj) true (httpMetadata obj) ;;
          _ <~ BUCKET_delete srcKey ;;
          ret {| responseBody := BodyNull; status := 201; headers := [] |}
      end.

Definition handleCopy (env : Env) (srcKey : jsstring) (request : Request)
    : IO Response :=
  let dest := Destination request in
  if negb (truthy dest)
  then ret {| responseBody := BodyText (js "Bad Request"); status := 400; headers := [] |}
  else
    destPathname <~ orThrow TypeError (URL_pathname (default [] dest)) ;;
    if negb (startsWith destPathname (js "/zotero/"))
    then ret {| responseBody := BodyText (js "Forbidden"); status := 403; headers := [] |}
    else
      destKey <~ orThrow URIError (pathToKey destPathname) ;;
      obj <~ BUCKET_get srcKey ;;
      match obj with
      | None => ret {| responseBody := BodyText (js "Not Found"); status := 404; headers := [] |}
      | Some obj =>
          _ <~ BUCKET_put destKey (body obj) true (httpMetadata obj) ;;
          ret {| responseBody := BodyNull; status := 201; headers := [] |}
      end.

Definition handleDelete (env : Env) (key : jsstring) : IO Response :=
  _ <~ BUCKET_delete key ;;
  ret {| responseBody := BodyNull; status := 204; headers := [] |}.

Definition handleMkcol (env : Env) (key : jsstring) : IO Response :=
  ret {| responseBody := BodyNull; status := 201; headers := [] |}.

(** *** PROPFIND *)

(** [now] is the value of [new Date()], read when [obj] is absent. *)
Definition buildPropResponse (now : Z) (a : PropArgs) : jsstring :=
  let lastModified :=
    match obj a with
    | Some o => toUTCString (uploaded o)
    | None => toUTCString now
    end in
  nl ++
  js "  <d:response>" ++ nl ++
  js "    <d:href>" ++ href a ++ js "</d:href>" ++ nl ++
  js "    <d:propstat>" ++ nl ++
  js "      <d:prop>" ++ nl ++
  js "        <d:resourcetype>" ++ nl ++
  js "          " ++ (if isCollection a then js "<d:collection/>" else []) ++ nl ++
  js "        </d:resourcetype>" ++ nl ++
  js "        " ++
    match obj a with
    | Some o => js "<d:getcontentlength>" ++ js (pretty (size o)) ++ js "</d:getcontentlength>"
    | None => []
    end ++ nl ++
  js "        " ++
    match obj a with
    | Some o => js "<d:getetag>" ++ quote ++ etag o ++ quote ++ js "</d:getetag>"
    | None => []
    end ++ nl ++
  js "        <d:getlastmodified>" ++ lastModified ++ js "</d:getlastmodified>" ++ nl ++
  js "      </d:prop>" ++ nl ++
  js "      <d:status>HTTP/1.1 200 OK</d:status>" ++ nl ++
  js "    </d:propstat>" ++ nl ++
  js "  </d:response>".

(** The multi-status document around the entries. *)
Definition multistatus (responses : list jsstring) : Response :=
  {| responseBody :=
       BodyText
         (js "<?xml version=" ++ quote ++ js "1.0" ++ quote ++
          js " encoding=" ++ quote ++ js "UTF-8" ++ quote ++ js "?>" ++ nl ++
          js "<d:multistatus xmlns:d=" ++ quote ++ js "DAV:" ++ quote ++ js ">" ++ nl ++
          join nl responses ++ nl ++
          js "</d:multistatus>");
     status := 207;
     headers := [("Content-Type"%string, js "application/xml; charset=utf-8")] |}.

Definition handlePropfind (env : Env) (path : jsstring) (request : Request)
    : IO Response :=
  let depth := if truthy (Depth request) then default [] (Depth request) else js "0" in
  basePathname <~ orThrow TypeError (URL_pathname (url request)) ;;
  let prefix := if endsWith path (js "/") then path else path ++ js "/" in
  responses <~
    (if strictEq depth (js "0") then
       obj <~ (if truthy (Some path) then BUCKET_get path else ret None) ;;
       now <~ Date_now ;;
       ret [buildPropResponse now
              {| href := basePathname; isCollection := negb (bool_decide (is_Some obj));
                 obj := obj |}]
     else
       list <~ BUCKET_list prefix ;;
       now <~ Date_now ;;
       let parent :=
         buildPropResponse now
           {| href := if endsWith basePathname (js "/") then basePathname
                      else basePathname ++ js "/";
              isCollection := true; obj := None |} in
       children <~
         forEach (λ o,
           ret (buildPropResponse now
                  {| href := URL_pathname_from (js "/zotero/" ++ key o) (url request);
                     isCollection := false; obj := Some o |}))
           list ;;
       ret (parent :: children)) ;;
  ret (multistatus responses).

(** The prefix that is listed (line 179). *)
Definition listPrefix (path : jsstring) : jsstring :=
  if endsWith path (js "/") then path else path ++ js "/".

(** The entry of a Depth 0 answer (lines 185-191). *)
Definition selfEntry (now : Z) (basePathname : jsstring) (obj : option R2Object)
    : jsstring :=
  buildPropResponse now
    {| href := basePathname; isCollection := negb (bool_decide (is_Some obj));
       obj := obj |}.

(** The entry of the parent collection (lines 197-204). *)
Definition parentEntry (now : Z) (basePathname : jsstring) : jsstring :=
  buildPropResponse now
    {| href := if endsWith basePathname (js "/") then basePathname
               else basePathname ++ js "/";
       isCollection := true; obj := None |}.

(** The entry of a listed object (lines 207-213). *)
Definition childEntry (now : Z) (request : Request) (o : R2Object) : jsstring :=
  buildPropResponse now
    {| href := URL_pathname_from (js "/zotero/" ++ key o) (url request);
       isCollection := false; obj := Some o |}.

(** *** OPTIONS *)

Definition handleOptions : IO Response :=
  ret {| responseBody := BodyNull; status := 204;
         headers :=
           [("Allow"%string, js "OPTIONS, GET, HEAD, PUT, DELETE, MKCOL, PROPFIND, MOVE, COPY");
            ("DAV"%string, js "1,2");
            ("MS-Author-Via"%string, js "DAV")] |}.

(** *** fetch *)

Definition unauthorized : Response :=
  {| responseBody := BodyText (js "Unauthorized"); status := 401;
     headers :=
       [("WWW-Authenticate"%string,
         js "Basic realm=" ++ quote ++ js "Zotero WebDAV" ++ quote)] |}.

Definition fetch (request : Request) (env : Env) : IO Response :=
  let auth := Authorization request in
  if negb (truthy auth) || negb (checkAuth (default [] auth) env)
  then ret unauthorized
  else
    pathname <~ orThrow TypeError (URL_pathname (url request)) ;;
    if negb (startsWith pathname (js "/zotero/"))
    then ret {| responseBody := BodyText (js "Not Found"); status := 404; headers := [] |}
    else
      path <~ orThrow URIError (pathToKey pathname) ;;
      let method := method request in
      if strictEq method (js "GET") || strictEq method (js "HEAD")
      then handleGetHead env path method
      else if strictEq method (js "PUT") then handlePut env path request
      else if strictEq method (js "MOVE") then handleMove env path request
      else if strictEq method (js "COPY") then handleCopy env path request
      else if strictEq method (js "DELETE") then handleDelete env path
      else if strictEq method (js "MKCOL") then handleMkcol env path
      else if strictEq method (js "PROPFIND") then handlePropfind env path request
      else if strictEq method (js "OPTIONS") then handleOptions
      else ret {| responseBody := BodyText (js "Method Not Allowed"); status := 405;
                  headers := [] |}.
End Worker.

(** ** Vocabulary of the statements *)

(** The outcome of a GET that returns the content [b]. *)
Definition returnsContent (res : exn + Response) (b : list Byte.byte) : Prop :=
  ∃ r, res = inr r ∧ status r = 200 ∧ responseBody r = BodyStream b.

(** The outcome of a GET that fails with NotFound. *)
Definition failsNotFound (res : exn + Response) : Prop :=
  ∃ r, res = inr r ∧ status r = 404.

Definition withDepth (d : option jsstring) (r : Request) : Request :=
  {| method := method r; url := url r; Authorization := Authorization r;
     Destination := Destination r; Depth := d; requestBody := requestBody r;
     bodyLengthKnown := bodyLengthKnown r |}.

Definition withAuthorization (a : option jsstring) (r : Request) : Request :=
  {| method := method r; url := url r; Authorization := a;
     Destination := Destination r; Depth := Depth r; requestBody := requestBody r;
     bodyLengthKnown := bodyLengthKnown r |}.

Definition withDestination (d : option jsstring) (r : Request) : Request :=
  {| method := method r; url := url r; Authorization := Authorization r;
     Destination := d; Depth := Depth r; requestBody := requestBody r;
     bodyLengthKnown := bodyLengthKnown r |}.

Definition withBody (b : list Byte.byte) (lengthKnown : bool) (r : Request) : Request :=
  {| method := method r; url := url r; Authorization := Authorization r;
     Destination := Destination r; Depth := Depth r; requestBody := b;
     bodyLengthKnown := lengthKnown |}.

(** ** Reading a multi-status document

    What a client reads back from the text of an answer: the [response]
    elements in their order and, in each, the href, whether the resource
    type holds the collection mark, the content length, the etag and the
    date of last modification. *)

(** The text before the first occurrence of [pat] and the text after
    it. *)
Fixpoint cut (pat s : jsstring) : option (jsstring * jsstring) :=
  if startsWith s pat then Some ([], drop (length pat) s)
  else
    match s with
    | [] => None
    | c :: s' => '(before, after) ← cut pat s'; Some (c :: before, after)
    end.

(** The content of the first element [<d:name>...</d:name>] and the text
    after it. *)
Definition element (name : string) (s : jsstring) : option (jsstring * jsstring) :=
  '(_, inside) ← cut (js "<d:" ++ js name ++ js ">") s;
  cut (js "</d:" ++ js name ++ js ">") inside.

(** The contents of the successive elements of one name. *)
Fixpoint elements (fuel : nat) (name : string) (s : jsstring) : list jsstring :=
  match fuel with
  | O => []
  | S fuel' =>
      match element name s with
      | Some (content, rest) => content :: elements fuel' name rest
      | None => []
      end
  end.

(** What one [response] element tells about a resource. *)
Record Entry := {
  e_href : jsstring;
  e_collection : bool;
  e_length : option jsstring;
  e_etag : option jsstring;
  e_lastModified : jsstring;
}.

(** The entry in the content [t] of a [response] element; [None] when
    the href, the resource type or the date is not there. *)
Definition readResponse (t : jsstring) : option Entry :=
  '(href, _) ← element "href" t;
  '(resourcetype, _) ← element "resourcetype" t;
  '(modified, _) ← element "getlastmodified" t;
  Some {| e_href := href;
          e_collection :=
            bool_decide (is_Some (cut (js "<d:collection/>") resourcetype));
          e_length := fst <$> element "getcontentlength" t;
          e_etag := fst <$> element "getetag" t;
          e_lastModified := modified |}.

(** The entries of a document, in its order. *)
Definition readMultistatus (doc : jsstring) : list (option Entry) :=
  readResponse <$> elements (length doc) "response" doc.

(** A text without [<]. *)
Definition plain (s : jsstring) : Prop := 60 ∉ s.

(** The texts the runtime puts into an answer hold no [<]: a date is
    letters, digits, commas, colons and spaces, and the path of a URL
    with a base has [<] percent-encoded. *)
Class PlatformTexts `{Platform} := {
  toUTCString_plain : ∀ t, plain (toUTCString t);
  URL_pathname_from_plain : ∀ p base, plain (URL_pathname_from p base);
}.

(** The entry a client reads for the arguments [a] of
    [buildPropResponse]. *)
Definition entryOf `{Platform} (now : Z) (a : PropArgs) : Entry :=
  {| e_href := href a;
     e_collection := isCollection a;
     e_length := (λ o, js (pretty (size o))) <$> obj a;
     e_etag := (λ o, quote ++ etag o ++ quote) <$> obj a;
     e_lastModified :=
       match obj a with
       | Some o => toUTCString (uploaded o)
       | None => toUTCString now
       end |}.

(** What a client reads in the entry of a collection and in the entry of
    an object. *)
Definition collectionEntry `{Platform} (h : jsstring) (now : Z) : Entry :=
  {| e_href := h; e_collection := true; e_length := None; e_etag := None;
     e_lastModified := toUTCString now |}.

Definition objectEntry `{Platform} (h : jsstring) (o : R2Object) : Entry :=
  {| e_href := h; e_collection := false;
     e_length := Some (js (pretty (size o)));
     e_etag := Some (quote ++ etag o ++ quote);
     e_lastModified := toUTCString (uploaded o) |}.

(** The arguments of an entry whose texts hold no [<]. *)
Definition plainArgs (a : PropArgs) : Prop :=
  plain (href a) ∧ ∀ o, obj a = Some o → plain (etag o).

(** The text of an answer. *)
Definition documentOf (r : Response) : jsstring :=
  match responseBody r with BodyText t => t | _ => [] end.

(** The methods the [Allow] header of OPTIONS names, in its order. *)
Definition allowedMethods : list string :=
  ["OPTIONS"; "GET"; "HEAD"; "PUT"; "DELETE"; "MKCOL"; "PROPFIND"; "MOVE"; "COPY"]%string.

(** The methods that only read. *)
Definition readingMethods : list string :=
  ["GET"; "HEAD"; "MKCOL"; "PROPFIND"; "OPTIONS"]%string.

(** The [switch] of lines 27-55 on its own, for a resolved [path]. *)
Definition dispatch `{Platform} `{R2} (env : Env) (path : jsstring) (request : Request)
    : IO Response :=
  let method := method request in
  if strictEq method (js "GET") || strictEq method (js "HEAD")
  then handleGetHead env path method
  else if strictEq method (js "PUT") then handlePut env path request
  else if strictEq method (js "MOVE") then handleMove env path request
  else if strictEq method (js "COPY") then handleCopy env path request
  else if strictEq method (js "DELETE") then handleDelete env path
  else if strictEq method (js "MKCOL") then handleMkcol env path
  else if strictEq method (js "PROPFIND") then handlePropfind env path request
  else if strictEq method (js "OPTIONS") then handleOptions
  else ret {| responseBody := BodyText (js "Method Not Allowed"); status := 405;
              headers := [] |}.

(** The object a MOVE or COPY writes for the source object [o]. *)
Definition copyOf `{R2} (o : Stored) (w : World) : Stored :=
  {| s_body := s_body o; s_etag := etagOf (s_body o); s_uploaded := clock w;
     s_httpMetadata := s_httpMetadata o |}.

(** ** A concrete runtime and store

    One instance of the parameters, to run the handler on examples. *)

Module Sample.

Definition base64Value (c : N) : option N :=
  if (65 <=? c) && (c <=? 90) then Some (c - 65)
  else if (97 <=? c) && (c <=? 122) then Some (c - 71)
  else if (48 <=? c) && (c <=? 57) then Some (c + 4)
  else if c =? 43 then Some 62
  else if c =? 47 then Some 63
  else None.

Fixpoint base64Groups (v : list N) : jsstring :=
  match v with
  | a :: b :: c :: d :: rest =>
      let n := ((a * 64 + b) * 64 + c) * 64 + d in
      [n / 65536; (n / 256) mod 256; n mod 256] ++ base64Groups rest
  | [a; b; c] => let n := (a * 64 + b) * 64 + c in [n / 1024; (n / 4) mod 256]
  | [a; b] => [(a * 64 + b) / 16]
  | _ => []
  end.

Definition isAsciiWhitespace (c : N) : bool :=
  (c =? 9) || (c =? 10) || (c =? 12) || (c =? 13) || (c =? 32).

Definition dropPadding (s : jsstring) : jsstring :=
  if (length s mod 4 =? 0)%nat then
    match reverse s with
    | 61 :: 61 :: r => reverse r
    | 61 :: r => reverse r
    | _ => s
    end
  else s.

(** Forgiving base64 decoding, as [atob] does it. *)
Definition decodeBase64 (s : jsstring) : option jsstring :=
  let s := dropPadding (filter (λ c, isAsciiWhitespace c = false) s) in
  if (length s mod 4 =? 1)%nat then None
  else base64Groups <$> mapM base64Value s.

Fixpoint untilAny (stops : list N) (s : jsstring) : jsstring :=
  match s with
  | [] => []
  | c :: s' => if bool_decide (c ∈ stops) then [] else c :: untilAny stops s'
  end.

Fixpoint fromFirst (c : N) (s : jsstring) : jsstring :=
  match s with
  | [] => []
  | d :: s' => if d =? c then s else fromFirst c s'
  end.

(** The path of [https://authority/path?query#fragment], for URLs that
    need no normalisation. *)
Definition pathOf (u : jsstring) : jsstring :=
  match untilAny [63; 35] (fromFirst 47 u) with
  | [] => js "/"
  | p => p
  end.

Definition pathnameOf (u : jsstring) : option jsstring :=
  if startsWith u (js "https://") then Some (pathOf (drop 8 u)) else None.

(** Paths have [<] percent-encoded. *)
Definition encodeAngle (s : jsstring) : jsstring :=
  s ≫= λ c, if c =? 60 then js "%3C" else [c].

#[export] Instance platform : Platform :=
  {| atob := decodeBase64;
     URL_pathname := pathnameOf;
     URL_pathname_from := λ p _, encodeAngle (pathOf p);
     toUTCString := λ t, encodeAngle (js (pretty t)) |}.

#[export] Instance texts : PlatformTexts.
Proof.
  assert (∀ s, plain (encodeAngle s)) as Hplain.
  { intros s Hin. unfold encodeAngle in Hin.
    apply list_elem_of_bind in Hin as (c & Hin & _).
    destruct (c =? 60) eqn:Hc.
    - vm_compute in Hin. repeat (inversion Hin as [|? ? ? Hin']; clear Hin;
        rename Hin' into Hin).
    - apply list_elem_of_singleton in Hin. subst c. discriminate. }
  split; intros; apply Hplain.
Defined.

(** A store whose [list] returns the first 1000 objects under the
    prefix. *)
#[export] Instance store : R2.
Proof.
  refine {| etagOf := λ b, js (pretty (length b));
            listing := λ m prefix, take 1000 (objectsUnder m prefix) |}.
  - intros m prefix. apply sublist_submseteq, sublist_take.
  - intros m prefix. rewrite length_take. lia.
  - intros m prefix Hle. by rewrite take_ge.
Defined.

Definition env : Env :=
  {| WEBDAV_USER := js "user"; WEBDAV_PASS := js "secret" |}.

(** [Basic base64("user:secret")] *)
Definition goodAuth : jsstring := js "Basic dXNlcjpzZWNyZXQ=".
(** [Basic base64("user:wrong")] *)
Definition badAuth : jsstring := js "Basic dXNlcjp3cm9uZw==".

Definition request (m u : string) : Request :=
  {| method := js m; url := js u; Authorization := Some goodAuth;
     Destination := None; Depth := None; requestBody := [];
     bodyLengthKnown := true |}.

Definition stored (b : list Byte.byte) : Stored :=
  {| s_body := b; s_etag := etagOf b; s_uploaded := 0; s_httpMetadata := [] |}.

Definition world (m : gmap jsstring Stored) : World :=
  {| bucket := m; clock := 1000; trace := [] |}.

(** [n] empty objects with the keys [p/0], [p/1], ... *)
Definition crowd (n : nat) : gmap jsstring Stored :=
  list_to_map ((λ i : nat, (js "p/" ++ js (pretty i), stored [])) <$> seq 0 n).

End Sample.

(** * Properties *)

(** ** Strings *)

Lemma startsWith_app (p s : jsstring) : startsWith (p ++ s) p = true.
Proof.
  induction p as [|c p IH]; simpl; [done|].
  rewrite N.eqb_refl. exact IH.
Qed.

Lemma startsWith_prefix (s p : jsstring) :
  startsWith s p = true ↔ p `prefix_of` s.
Proof.
  revert s. induction p as [|c p IH]; intros s; simpl.
  - split; [intros _; apply prefix_nil | done].
  - destruct s as [|d s].
    + split; [done | intros [k Hk]; discriminate].
    + rewrite andb_true_iff, N.eqb_eq, IH. split.
      * intros [-> Hp]. by apply prefix_cons.
      * intros [k Hk]. simplify_eq/=. split; [done | by exists k].
Qed.

Lemma startsWith_app_l (s p q : jsstring) :
  startsWith s (p ++ q) = true → startsWith s p = true.
Proof.
  rewrite !startsWith_prefix. intros [k ->].
  rewrite <-(assoc_L (++)). by apply prefix_app_r.
Qed.

Lemma replacePrefix_app (p s : jsstring) : replacePrefix (p ++ s) p = s.
Proof.
  unfold replacePrefix. rewrite startsWith_app. by rewrite drop_app_length.
Qed.

Lemma replaceLeadingSlashes_head (r : jsstring) :
  head r ≠ Some 47 → replaceLeadingSlashes r = r.
Proof.
  destruct r as [|c r]; simpl; [done|]. intros Hc.
  destruct (N.eqb_spec c 47) as [->|]; [done | done].
Qed.

Lemma replaceLeadingSlashes_run (n : nat) (r : jsstring) :
  head r ≠ Some 47 → replaceLeadingSlashes (replicate n 47 ++ r) = r.
Proof.
  intros Hr. induction n as [|n IH]; simpl; [by apply replaceLeadingSlashes_head | done].
Qed.

Lemma replaceLeadingSlashes_no_slash (s : jsstring) :
  head (replaceLeadingSlashes s) ≠ Some 47.
Proof.
  induction s as [|c s IH]; simpl; [done|].
  destruct (N.eqb_spec c 47); [done|]. simpl. congruence.
Qed.

Lemma indexOf_first (u p : jsstring) (c : N) :
  c ∉ u → indexOf (u ++ c :: p) c = Some (length u).
Proof.
  induction u as [|d u IH]; simpl; intros Hc.
  - by rewrite N.eqb_refl.
  - apply not_elem_of_cons in Hc as [Hd Hu].
    destruct (N.eqb_spec d c); [congruence|]. by rewrite IH.
Qed.

Lemma drop_after_separator (u p : jsstring) (c : N) :
  drop (S (length u)) (u ++ c :: p) = p.
Proof. induction u as [|d u IH]; simpl; [done | exact IH]. Qed.

Lemma indexOf_absent (s : jsstring) (c : N) : c ∉ s → indexOf s c = None.
Proof.
  induction s as [|d s IH]; simpl; intros Hc; [done|].
  apply not_elem_of_cons in Hc as [Hd Hs].
  destruct (N.eqb_spec d c); [congruence|]. by rewrite IH.
Qed.

Lemma indexOf_None (s : jsstring) (c : N) : indexOf s c = None → c ∉ s.
Proof.
  induction s as [|d s IH]; simpl; [intros _; apply not_elem_of_nil|].
  destruct (N.eqb_spec d c); [done|].
  destruct (indexOf s c); [done|]. intros _.
  apply not_elem_of_cons. split; [congruence | by apply IH].
Qed.

Lemma indexOf_Some (s : jsstring) (c : N) (i : nat) :
  indexOf s c = Some i →
  s = take i s ++ c :: drop (S i) s ∧ c ∉ take i s.
Proof.
  revert i. induction s as [|d s IH]; intros i; simpl; [done|].
  destruct (N.eqb_spec d c) as [->|Hd].
  - intros [= <-]. simpl. rewrite drop_0. split; [done | apply not_elem_of_nil].
  - destruct (indexOf s c) as [j|]; [|done]. intros [= <-].
    destruct (IH j eq_refl) as [Hs Hc]. simpl. split.
    + by rewrite <-Hs.
    + apply not_elem_of_cons. split; [congruence | done].
Qed.

(** ** decodeURIComponent *)

Example decode_slash : decodeURIComponent (js "%2Ffoo") = Some (js "/foo").
Proof. reflexivity. Qed.
Example decode_euro : decodeURIComponent (js "a%E2%82%ACb") = Some [97; 8364; 98].
Proof. reflexivity. Qed.
Example decode_astral : decodeURIComponent (js "%F0%9F%98%80") = Some [55357; 56832].
Proof. reflexivity. Qed.
Example decode_overlong : decodeURIComponent (js "%C0%AF") = None.
Proof. reflexivity. Qed.
Example decode_surrogate : decodeURIComponent (js "%ED%A0%80") = None.
Proof. reflexivity. Qed.
Example decode_truncated : decodeURIComponent (js "ab%2") = None.
Proof. reflexivity. Qed.

(** An escape takes three units. *)
Lemma parseEscape_length (s rest : jsstring) (b : N) :
  parseEscape s = Some (b, rest) → length s = (3 + length rest)%nat.
Proof.
  destruct s as [|c [|h [|l r]]]; simpl.
  - done.
  - destruct c as [|p]; [done|]. repeat (destruct p as [p|p|]; try done).
  - destruct c as [|p]; [done|]. repeat (destruct p as [p|p|]; try done).
  - destruct c as [|p]; [done|]. repeat (destruct p as [p|p|]; try done).
    destruct (hexDigit h), (hexDigit l); try done. by intros [= _ ->].
Qed.

Lemma continuationBytes_length (n : nat) (s rest : jsstring) (bs : list N) :
  continuationBytes n s = Some (bs, rest) → (length rest ≤ length s)%nat.
Proof.
  revert s bs. induction n as [|n IH]; intros s bs; simpl.
  - by intros [= _ ->].
  - destruct (parseEscape s) as [[b r]|] eqn:Ep; [|done]. simpl.
    destruct (continuationBytes n r) as [[bs' r']|] eqn:Ec; [|done]. simpl.
    intros [= _ ->]. apply parseEscape_length in Ep. apply IH in Ec. lia.
Qed.

(** The fuel [decodeURIComponent] starts with is never used up: any fuel
    beyond the length of the input gives the same result. *)
Lemma Decode_fuel (f1 f2 : nat) (s : jsstring) :
  (length s < f1)%nat → (length s < f2)%nat → Decode f1 s = Decode f2 s.
Proof.
  revert f2 s. induction f1 as [|f1 IH]; intros f2 s H1 H2; [lia|].
  destruct f2 as [|f2]; [lia|]. destruct s as [|c tl]; [done|].
  cbn [Decode]. destruct (c =? 37).
  - destruct (parseEscape (c :: tl)) as [[b rest]|] eqn:Ep; [|done].
    apply parseEscape_length in Ep. cbn [mbind option_bind].
    destruct (leadingOnes b) as [|[|n]].
    + rewrite (IH f2 rest) by (simpl in *; lia). done.
    + done.
    + destruct n as [|[|[|n]]]; [| | |done];
        (destruct (continuationBytes _ rest) as [[conts rest']|] eqn:Ec; [|done];
         cbn [mbind option_bind];
         destruct (utf8CodePoint b conts); [|done]; cbn [mbind option_bind];
         apply continuationBytes_length in Ec;
         rewrite (IH f2 rest') by (simpl in *; lia); done).
  - rewrite (IH f2 tl) by (simpl in *; lia). done.
Qed.

(** A string without [%] decodes to itself, given fuel beyond its length. *)
Lemma Decode_plain (fuel : nat) (s : jsstring) :
  (length s < fuel)%nat → 37 ∉ s → Decode fuel s = Some s.
Proof.
  revert s. induction fuel as [|fuel IH]; intros s Hlen Hs; [lia|].
  destruct s as [|c s]; simpl; [done|].
  apply not_elem_of_cons in Hs as [Hc Hs].
  destruct (N.eqb_spec c 37); [congruence|].
  rewrite IH; [done | simpl in Hlen; lia | done].
Qed.

Lemma decodeURIComponent_plain (s : jsstring) :
  37 ∉ s → decodeURIComponent s = Some s.
Proof. intros. apply Decode_plain; [lia | done]. Qed.

(** The result begins with the first unit of the input when that unit is
    not [%]. *)
Lemma Decode_head (fuel : nat) (s k : jsstring) :
  head s ≠ Some 37 → Decode fuel s = Some k → head k = head s.
Proof.
  destruct fuel as [|fuel]; [done|].
  destruct s as [|c s]; cbn [Decode head].
  - by intros _ [= <-].
  - intros Hc. destruct (N.eqb_spec c 37); [congruence|].
    destruct (Decode fuel s); [|done]. by intros [= <-].
Qed.

Lemma decodeURIComponent_head (s k : jsstring) :
  head s ≠ Some 37 → decodeURIComponent s = Some k → head k = head s.
Proof. apply Decode_head. Qed.

(** ** The path resolver *)

(** C2 (as the code has it).  For a pathname under [/zotero/] the key is
    obtained by removing the run of raw leading slashes of the remainder
    first and percent-decoding what is left second.  A remainder without
    escapes resolves to itself, and the key has no leading slash whenever
    what is left after the raw slashes does not begin with an escape. *)
Theorem pathToKey_strips_then_decodes (n : nat) (r : jsstring) :
  head r ≠ Some 47 →
  pathToKey (js "/zotero/" ++ replicate n 47 ++ r) = decodeURIComponent r
  ∧ (37 ∉ r → pathToKey (js "/zotero/" ++ replicate n 47 ++ r) = Some r)
  ∧ (head r ≠ Some 37 →
     ∀ k, pathToKey (js "/zotero/" ++ replicate n 47 ++ r) = Some k →
          head k ≠ Some 47).
Proof.
  intros Hr.
  assert (pathToKey (js "/zotero/" ++ replicate n 47 ++ r) = decodeURIComponent r) as E.
  { unfold pathToKey. by rewrite replacePrefix_app, replaceLeadingSlashes_run. }
  rewrite E. split_and!; [done | apply decodeURIComponent_plain |].
  intros Hp k Hk. by rewrite (decodeURIComponent_head r k Hp Hk).
Qed.

Lemma pathToKey_strips_then_decodes_witness :
  pathToKey (js "/zotero///foo") = decodeURIComponent (js "foo")
  ∧ (37 ∉ js "foo" → pathToKey (js "/zotero///foo") = Some (js "foo"))
  ∧ (head (js "foo") ≠ Some 37 →
     ∀ k, pathToKey (js "/zotero///foo") = Some k → head k ≠ Some 47).
Proof.
  apply (pathToKey_strips_then_decodes 2 (js "foo")). vm_compute. discriminate.
Defined.

(** C2 (as claimed) fails: the remainder [%2Ffoo] has no raw leading slash
    to strip, and decoding it afterwards yields the key [/foo]; decoding
    first and stripping second would have given [foo]. *)
Lemma pathToKey_encoded_slash :
  pathToKey (js "/zotero/%2Ffoo") = Some (js "/foo")
  ∧ head (js "/foo") = Some 47
  ∧ specPathToKey (js "/zotero/%2Ffoo") = Some (js "foo")
  ∧ pathToKey (js "/zotero/%2Ffoo") ≠ specPathToKey (js "/zotero/%2Ffoo").
Proof. vm_compute. split_and!; [done | done | done | discriminate]. Qed.

(** ** Reading a multi-status document *)

Lemma plain_app (s t : jsstring) : plain s → plain t → plain (s ++ t).
Proof. unfold plain. rewrite elem_of_app. tauto. Qed.

Lemma cut_plain (pat x s : jsstring) :
  plain x →
  cut (60 :: pat) (x ++ s) = '(before, after) ← cut (60 :: pat) s; Some (x ++ before, after).
Proof.
  intros Hx. induction x as [|c x IH].
  - destruct (cut (60 :: pat) s) as [[??]|] eqn:E; cbn [app]; rewrite E; reflexivity.
  - apply not_elem_of_cons in Hx as [Hc Hx].
    cbn [app cut startsWith]. rewrite (proj2 (N.eqb_neq 60 c)) by done.
    cbn [andb]. rewrite IH by done.
    destruct (cut (60 :: pat) s) as [[??]|]; reflexivity.
Qed.

Lemma pretty_N_go_plain (x : N) (s : string) :
  plain (js s) → plain (js (pretty_N_go x s)).
Proof.
  revert s. induction (N.lt_wf_0 x) as [x _ IH]; intros s Hs.
  assert (x = 0 ∨ 0 < x) as [->|Hx] by lia; [done|].
  rewrite pretty_N_go_step by done. apply IH; [by apply N.div_lt|].
  intros Hin. apply elem_of_cons in Hin as [Hin|Hin]; [|done].
  revert Hin. unfold pretty_N_char. by repeat case_match.
Qed.

Lemma pretty_N_plain (x : N) : plain (js (pretty x)).
Proof.
  unfold pretty, pretty_N. case_decide.
  - intros Hin. apply list_elem_of_singleton in Hin. done.
  - apply pretty_N_go_plain. apply not_elem_of_nil.
Qed.

Local Ltac literals :=
  unfold nl, quote;
  repeat match goal with
         | |- context [js ?s] =>
             lazymatch s with
             | String _ _ =>
                 let v := eval vm_compute in (js s) in change (js s) with v
             end
         end.

Local Ltac read_on :=
  repeat first
    [ rewrite cut_plain by assumption
    | rewrite drop_0
    | progress cbn [cut startsWith andb app drop length N.eqb Pos.eqb mbind option_bind
                    fmap option_fmap option_map fst snd] ].

Lemma element_skip (c : N) (s : jsstring) :
  c ≠ 60 → element "response" (c :: s) = element "response" s.
Proof.
  intros Hc. unfold element. literals. cbn [app cut startsWith].
  rewrite (proj2 (N.eqb_neq 60 c)) by done. cbn [andb].
  destruct (cut _ s) as [[??]|]; reflexivity.
Qed.

Lemma elements_skip (fuel : nat) (c : N) (s : jsstring) :
  c ≠ 60 → elements fuel "response" (c :: s) = elements fuel "response" s.
Proof.
  intros Hc. destruct fuel as [|fuel]; [done|].
  cbn [elements]. by rewrite element_skip.
Qed.

Lemma elements_skip_nl (fuel : nat) (s : jsstring) :
  elements fuel "response" (nl ++ s) = elements fuel "response" s.
Proof. by apply elements_skip. Qed.

Lemma join_cons_app (sep r T : jsstring) (rs : list jsstring) :
  join sep (r :: rs) ++ T =
    r ++ match rs with [] => T | _ :: _ => sep ++ join sep rs ++ T end.
Proof. destruct rs; cbn [join]; [done|]. by rewrite <-!(assoc_L (++)). Qed.

Lemma length_join (sep : jsstring) (rs : list jsstring) :
  Forall (λ r, r ≠ []) rs → (length rs ≤ length (join sep rs))%nat.
Proof.
  induction 1 as [|r rs Hr _ IH]; [done|].
  destruct rs as [|r' rs]; cbn [join].
  - destruct r; [done | simpl; lia].
  - rewrite !length_app. destruct r; [done|]. simpl in *. lia.
Qed.

Section Properties.
Context `{Platform} `{R2}.

(** ** The credential check *)

Lemma fetch_unauthenticated (request : Request) (env : Env) (w : World) :
  authenticated request env = false →
  fetch request env w = (inr unauthorized, w).
Proof.
  unfold authenticated, fetch. intros Hauth.
  apply andb_false_iff in Hauth as [-> | ->]; [done|].
  by rewrite orb_true_r.
Qed.

Lemma checkAuth_basic (e : jsstring) (env : Env) :
  checkAuth (js "Basic " ++ e) env =
    match atob e with
    | None => false
    | Some decoded =>
        match indexOf decoded 58 with
        | None => false
        | Some sep =>
            strictEq (take sep decoded) (WEBDAV_USER env)
            && strictEq (drop (sep + 1) decoded) (WEBDAV_PASS env)
        end
    end.
Proof. unfold checkAuth. by rewrite startsWith_app. Qed.

Lemma Rejected_not_authenticated (request : Request) (env : Env) :
  Rejected env (Authorization request) → authenticated request env = false.
Proof.
  unfold authenticated. generalize (Authorization request).
  intros auth Hrej. apply andb_false_iff.
  destruct Hrej as [| a Hpre | e He | e d He Hd | e u p He Hu Hne];
    cbn [from_option id]; [by left | right ..].
  - unfold checkAuth. destruct (startsWith a (js "Basic ")) eqn:E; [|done].
    by apply startsWith_prefix in E.
  - by rewrite checkAuth_basic, He.
  - by rewrite checkAuth_basic, He, indexOf_absent.
  - rewrite checkAuth_basic, He, indexOf_first by done.
    rewrite take_app_length.
    replace (length u + 1)%nat with (S (length u)) by lia.
    rewrite drop_after_separator.
    unfold strictEq. apply andb_false_iff.
    destruct (decide (u = WEBDAV_USER env)) as [->|]; [right | left].
    + apply bool_decide_eq_false. congruence.
    + by apply bool_decide_eq_false.
Qed.

(** [Rejected] lists every way the guard can turn a request down. *)
Lemma not_authenticated_Rejected (request : Request) (env : Env) :
  authenticated request env = false → Rejected env (Authorization request).
Proof.
  unfold authenticated. destruct (Authorization request) as [a|];
    [|intros _; constructor].
  destruct (decide (js "Basic " `prefix_of` a)) as [[e ->] | Hpre];
    [|intros _; by constructor].
  change (truthy (Some (js "Basic " ++ e))) with true.
  cbn [from_option id andb]. rewrite checkAuth_basic.
  destruct (atob e) as [d|] eqn:He; [|intros _; by apply rejected_base64].
  destruct (indexOf d 58) as [sep|] eqn:Hsep.
  - apply indexOf_Some in Hsep as [Hd Hu]. rewrite Hd in He.
    replace (sep + 1)%nat with (S sep) by lia. intros Hne.
    apply (rejected_mismatch env e _ _ He Hu).
    intros [= Hu' Hp']. unfold strictEq in Hne.
    by rewrite !bool_decide_eq_true_2 in Hne.
  - intros _. apply indexOf_None in Hsep. by apply (rejected_no_colon env e d).
Qed.

Lemma fetch_authenticated_outside
    (request : Request) (env : Env) (pathname : jsstring) (w : World) :
  authenticated request env = true →
  URL_pathname (url request) = Some pathname →
  startsWith pathname (js "/zotero/") = false →
  fetch request env w =
    (inr {| responseBody := BodyText (js "Not Found"); status := 404; headers := [] |}, w).
Proof.
  unfold authenticated, fetch. intros [-> ->]%andb_true_iff Hurl Hout.
  cbn [negb orb]. unfold bind, orThrow. rewrite Hurl. cbn [ret]. by rewrite Hout.
Qed.

Lemma fetch_authenticated_unsupported
    (request : Request) (env : Env) (pathname path : jsstring) (w : World) :
  authenticated request env = true →
  URL_pathname (url request) = Some pathname →
  startsWith pathname (js "/zotero/") = true →
  pathToKey pathname = Some path →
  method request ∉ js <$> ["GET"; "HEAD"; "PUT"; "MOVE"; "COPY"; "DELETE"; "MKCOL";
                           "PROPFIND"; "OPTIONS"]%string →
  fetch request env w =
    (inr {| responseBody := BodyText (js "Method Not Allowed"); status := 405;
            headers := [] |}, w).
Proof.
  unfold authenticated, fetch. intros [-> ->]%andb_true_iff Hurl Hin Hkey Hm.
  cbn [negb orb]. unfold bind, orThrow. rewrite Hurl. cbn [ret].
  rewrite Hin, Hkey. cbn [negb ret]. unfold strictEq.
  rewrite !bool_decide_eq_false_2; [done | intros E; apply Hm; rewrite E; set_solver ..].
Qed.

(** C6.  A request whose [Authorization] header is missing, is not of the
    [Basic] scheme, is not valid base64, decodes to a text without a colon,
    or decodes to a user and password other than the configured pair, is
    answered with status 401 and a [WWW-Authenticate] challenge, whatever
    its method and URL. *)
Theorem bad_credentials_unauthorized (request : Request) (env : Env) (w : World) :
  Rejected env (Authorization request) →
  ∃ r, (fetch request env w).1 = inr r
       ∧ status r = 401
       ∧ is_Some (lookupHeader "WWW-Authenticate" (headers r)).
Proof.
  intros Hrej. exists unauthorized.
  rewrite fetch_unauthenticated by by apply Rejected_not_authenticated.
  split_and!; [done | done | by eexists].
Qed.

(** C9.  The credential check comes first: a request that does not pass it
    is answered with 401 and leaves the world as it was (no bucket call,
    no change of the bucket), before the URL is parsed, the path is
    checked against the namespace or the method is dispatched. *)
Theorem credentials_before_routing (request : Request) (env : Env) (w : World) :
  authenticated request env = false →
  fetch request env w = (inr unauthorized, w)
  ∧ status unauthorized = 401
  ∧ trace (fetch request env w).2 = trace w
  ∧ bucket (fetch request env w).2 = bucket w.
Proof.
  intros Hauth. rewrite fetch_unauthenticated by done. done.
Qed.

(** ** PUT, GET and DELETE *)


(** C7.  [DELETE(k)] answers 204 whether or not an object is stored at
    [k]; a second [DELETE(k)] answers 204 as well and leaves the bucket as
    the first one left it. *)
Theorem delete_idempotent (env : Env) (k : jsstring) (w : World) :
  let once := handleDelete env k w in
  let twice := handleDelete env k once.2 in
  once.1 = inr {| responseBody := BodyNull; status := 204; headers := [] |}
  ∧ twice.1 = inr {| responseBody := BodyNull; status := 204; headers := [] |}
  ∧ bucket once.2 !! k = None
  ∧ bucket twice.2 = bucket once.2.
Proof.
  unfold handleDelete, BUCKET_delete, bind, ret. simpl.
  split_and!; [done | done | apply lookup_delete_eq | apply delete_delete_eq].
Qed.

(** ** MOVE and COPY *)

(** C4 (as the code has it).  A MOVE or COPY whose [Destination] header
    is missing or empty is answered with 400, and one whose [Destination]
    is a URL that [new URL] parses, with a path outside [/zotero/], is
    answered with 403; in both cases the world is left as it was: no
    bucket call is made. *)
Theorem move_copy_refuse_destination
    (env : Env) (srcKey : jsstring) (request : Request) (code : N) (w : World) :
  DestinationRefused (Destination request) code →
  ∃ r, status r = code
       ∧ handleMove env srcKey request w = (inr r, w)
       ∧ handleCopy env srcKey request w = (inr r, w).
Proof.
  unfold handleMove, handleCopy. generalize (Destination request).
  intros dest Href. destruct Href as [d Hd | dest pathname Hne Hurl Hout].
  - rewrite Hd. eexists; split; [|split; reflexivity]; reflexivity.
  - destruct dest as [|c dest]; [done|]. cbn [truthy negb from_option id].
    unfold bind, orThrow. rewrite Hurl. cbn [ret]. rewrite Hout.
    eexists; split; [|split; reflexivity]; reflexivity.
Qed.

(** A [Destination] that [new URL] does not parse is not refused: the
    handler throws before any bucket call. *)
Lemma move_copy_unparsed_destination
    (env : Env) (srcKey dest : jsstring) (request : Request) (w : World) :
  Destination request = Some dest → dest ≠ [] →
  URL_pathname dest = None →
  handleMove env srcKey request w = (inl TypeError, w)
  ∧ handleCopy env srcKey request w = (inl TypeError, w).
Proof.
  intros Hdest Hne Hurl. unfold handleMove, handleCopy. rewrite Hdest.
  destruct dest as [|c dest]; [done|]. cbn [truthy negb from_option id].
  unfold bind, orThrow. by rewrite Hurl.
Qed.

Lemma move_copy_resolved
    (env : Env) (srcKey destKey dest pathname : jsstring) (request : Request)
    (o : Stored) (w : World) :
  Destination request = Some dest → dest ≠ [] →
  URL_pathname dest = Some pathname →
  startsWith pathname (js "/zotero/") = true →
  pathToKey pathname = Some destKey →
  bucket w !! srcKey = Some o →
  let o' := {| s_body := s_body o; s_etag := etagOf (s_body o);
               s_uploaded := clock w; s_httpMetadata := s_httpMetadata o |} in
  handleMove env srcKey request w =
    (inr {| responseBody := BodyNull; status := 201; headers := [] |},
     {| bucket := delete srcKey (<[destKey := o']> (bucket w)); clock := clock w;
        trace := trace w ++ [CallGet srcKey; CallPut destKey (s_body o); CallDelete srcKey] |})
  ∧ handleCopy env srcKey request w =
    (inr {| responseBody := BodyNull; status := 201; headers := [] |},
     {| bucket := <[destKey := o']> (bucket w); clock := clock w;
        trace := trace w ++ [CallGet srcKey; CallPut destKey (s_body o)] |}).
Proof.
  intros Hdest Hne Hurl Hin Hkey Hsrc. unfold handleMove, handleCopy.
  rewrite Hdest. destruct dest as [|c dest]; [done|].
  cbn [truthy negb from_option id]. unfold bind, orThrow.
  rewrite Hurl. cbn [ret]. rewrite Hin, Hkey. cbn [negb ret].
  unfold BUCKET_get, BUCKET_put, BUCKET_delete, called. cbn.
  rewrite Hsrc. cbn. by rewrite <-!(assoc_L (++)).
Qed.

Lemma get_stored (env : Env) (k : jsstring) (o : Stored) (w : World) :
  bucket w !! k = Some o →
  returnsContent (handleGetHead env k (js "GET") w).1 (s_body o).
Proof.
  intros Hk. unfold handleGetHead, BUCKET_get, bind, ret. rewrite Hk.
  by eexists.
Qed.

Lemma get_content (env : Env) (k : jsstring) (b : list Byte.byte) (w : World) :
  s_body <$> bucket w !! k = Some b →
  returnsContent (handleGetHead env k (js "GET") w).1 b.
Proof.
  destruct (bucket w !! k) as [o|] eqn:Hk; [|done].
  intros [= <-]. by apply get_stored.
Qed.

Lemma get_absent (env : Env) (k : jsstring) (w : World) :
  bucket w !! k = None → failsNotFound (handleGetHead env k (js "GET") w).1.
Proof.
  intros Hk. unfold handleGetHead, BUCKET_get, bind, ret. rewrite Hk.
  by eexists.
Qed.

(** C3 (as the code has it).  With content [b] stored at [s] and a
    destination that resolves to the key [d]: after a COPY, a GET of [d]
    and a GET of [s] both return [b], for every [d]; after a MOVE to a key
    [d] other than [s], a GET of [d] returns [b] and a GET of [s] fails
    with NotFound. *)
Theorem move_copy_content
    (env : Env) (s d dest pathname : jsstring) (request : Request)
    (o : Stored) (w : World) :
  bucket w !! s = Some o →
  Destination request = Some dest → dest ≠ [] →
  URL_pathname dest = Some pathname →
  startsWith pathname (js "/zotero/") = true →
  pathToKey pathname = Some d →
  let b := s_body o in
  let moved := handleMove env s request w in
  let copied := handleCopy env s request w in
  (copied.1 = inr {| responseBody := BodyNull; status := 201; headers := [] |}
   ∧ returnsContent (handleGetHead env d (js "GET") copied.2).1 b
   ∧ returnsContent (handleGetHead env s (js "GET") copied.2).1 b)
  ∧ (s ≠ d →
     moved.1 = inr {| responseBody := BodyNull; status := 201; headers := [] |}
     ∧ returnsContent (handleGetHead env d (js "GET") moved.2).1 b
     ∧ failsNotFound (handleGetHead env s (js "GET") moved.2).1).
Proof.
  intros Hsrc Hdest Hne Hurl Hin Hkey b moved copied.
  destruct (move_copy_resolved env s d dest pathname request o w) as [Hm Hc];
    [done..|].
  subst moved copied. rewrite Hm, Hc. cbn [fst snd]. split.
  - split; [done|]. split.
    + apply get_content. cbn. by rewrite lookup_insert_eq.
    + apply get_content. cbn. destruct (decide (d = s)) as [->|Hds].
      * by rewrite lookup_insert_eq.
      * by rewrite lookup_insert_ne, Hsrc.
  - intros Hsd. split; [done|]. split.
    + apply get_content. cbn.
      rewrite lookup_delete_ne by done. by rewrite lookup_insert_eq.
    + apply get_absent. cbn. apply lookup_delete_eq.
Qed.

(** ** Listings *)

Lemma toObject_inj (k k' : jsstring) (o o' : Stored) :
  toObject k o = toObject k' o' → k = k' ∧ o = o'.
Proof.
  destruct o, o'. unfold toObject. simpl. intros [= -> _ -> -> -> ->]. done.
Qed.

Lemma elem_of_objectsUnder (m : gmap jsstring Stored) (prefix : jsstring) (x : R2Object) :
  x ∈ objectsUnder m prefix ↔
  ∃ k o, x = toObject k o ∧ m !! k = Some o ∧ startsWith k prefix = true.
Proof.
  unfold objectsUnder. rewrite list_elem_of_fmap. split.
  - intros [[k o] [-> Hin]]. apply list_elem_of_filter in Hin as [Hp Hin].
    apply elem_of_map_to_list in Hin. by exists k, o.
  - intros (k & o & -> & Hk & Hp). exists (k, o). split; [done|].
    apply list_elem_of_filter. split; [done | by apply elem_of_map_to_list].
Qed.

Lemma NoDup_objectsUnder (m : gmap jsstring Stored) (prefix : jsstring) :
  NoDup (objectsUnder m prefix).
Proof.
  unfold objectsUnder. apply NoDup_fmap_2_strong.
  - intros [k o] [k' o'] _ _ Heq. cbn in Heq.
    apply toObject_inj in Heq as [-> ->]. done.
  - apply NoDup_filter, NoDup_map_to_list.
Qed.

Lemma listing_elem_stored (m : gmap jsstring Stored) (prefix : jsstring) (x : R2Object) :
  x ∈ listing m prefix →
  ∃ k o, x = toObject k o ∧ m !! k = Some o ∧ startsWith k prefix = true.
Proof.
  intros Hx. apply elem_of_objectsUnder.
  apply (elem_of_submseteq _ _ _ Hx), listing_stored.
Qed.

Lemma NoDup_listing (m : gmap jsstring Stored) (prefix : jsstring) :
  NoDup (listing m prefix).
Proof.
  destruct (submseteq_Permutation _ _ (listing_stored m prefix)) as [rest Hperm].
  pose proof (NoDup_objectsUnder m prefix) as Hnd. rewrite Hperm in Hnd.
  by apply NoDup_app in Hnd as [? _].
Qed.

(** With no more than 1000 objects under the prefix the listing holds
    them all. *)
Lemma elem_of_listing (m : gmap jsstring Stored) (prefix : jsstring) (x : R2Object) :
  (length (objectsUnder m prefix) ≤ 1000)%nat →
  x ∈ listing m prefix ↔
  ∃ k o, x = toObject k o ∧ m !! k = Some o ∧ startsWith k prefix = true.
Proof.
  intros Hle. rewrite (listing_complete m prefix Hle). apply elem_of_objectsUnder.
Qed.

(** ** PROPFIND *)

Lemma forEach_ret {A B} (f : A → B) (l : list A) (w : World) :
  forEach (λ a, ret (f a)) l w = (inr (f <$> l), w).
Proof.
  induction l as [|a l IH]; [done|].
  cbn [forEach]. unfold bind at 1. unfold ret at 1. unfold bind at 1.
  rewrite IH. done.
Qed.

(** Any [Depth] other than ["0"] (and than the empty value, which is
    replaced by ["0"]) takes the listing branch. *)
Lemma propfind_listing
    (env : Env) (path d base : jsstring) (request : Request) (w : World) :
  Depth request = Some d → d ≠ [] → d ≠ js "0" →
  URL_pathname (url request) = Some base →
  handlePropfind env path request w =
    (inr (multistatus
            (parentEntry (clock w) base ::
             (childEntry (clock w) request <$> listing (bucket w) (listPrefix path)))),
     called (CallList (listPrefix path)) w).
Proof.
  intros Hd Hne Hzero Hurl. unfold handlePropfind. rewrite Hd.
  destruct d as [|c d]; [done|]. cbn [truthy from_option id].
  unfold strictEq. rewrite bool_decide_eq_false_2 by done.
  unfold bind at 1. unfold orThrow. rewrite Hurl. cbn [ret].
  unfold bind at 1. unfold bind at 1. unfold BUCKET_list at 1.
  unfold bind at 1. unfold Date_now at 1. unfold bind at 1.
  rewrite forEach_ret. done.
Qed.

(** A missing or empty [Depth], or ["0"], takes the single-entry branch. *)
Lemma propfind_single
    (env : Env) (path base : jsstring) (request : Request) (w : World) :
  truthy (Depth request) = false ∨ Depth request = Some (js "0") →
  URL_pathname (url request) = Some base →
  handlePropfind env path request w =
    match path with
    | [] => (inr (multistatus [selfEntry (clock w) base None]), w)
    | _ :: _ =>
        (inr (multistatus [selfEntry (clock w) base (toObject path <$> bucket w !! path)]),
         called (CallGet path) w)
    end.
Proof.
  intros Hd Hurl. unfold handlePropfind.
  assert ((if truthy (Depth request) then default [] (Depth request) else js "0")
          = js "0") as ->.
  { destruct Hd as [-> | ->]; done. }
  unfold strictEq. rewrite bool_decide_eq_true_2 by done.
  unfold bind at 1. unfold orThrow. rewrite Hurl. cbn [ret].
  destruct path as [|c path]; done.
Qed.

(** C1 (as the code has it).  A PROPFIND whose [Depth] header has a value
    other than ["0"], such as ["infinity"], is handled exactly as one with
    [Depth: 1]: the prefix is listed once, and the answer holds the entry
    of the parent collection followed by one entry per listed object. *)
Theorem propfind_other_depth_lists
    (env : Env) (path d base : jsstring) (request : Request) (w : World) :
  Depth request = Some d → d ≠ [] → d ≠ js "0" →
  URL_pathname (url request) = Some base →
  handlePropfind env path request w =
    handlePropfind env path (withDepth (Some (js "1")) request) w
  ∧ trace (handlePropfind env path request w).2 =
      trace w ++ [CallList (listPrefix path)]
  ∧ (handlePropfind env path request w).1 =
      inr (multistatus
             (parentEntry (clock w) base ::
              (childEntry (clock w) request <$>
                 listing (bucket w) (listPrefix path)))).
Proof.
  intros Hd Hne Hzero Hurl.
  rewrite (propfind_listing env path d base request w) by done.
  rewrite (propfind_listing env path (js "1") base (withDepth (Some (js "1")) request) w)
    by done.
  done.
Qed.

Section Documents.
Context `{!PlatformTexts}.

(** ** The document of an answer *)

Lemma read_entry (now : Z) (a : PropArgs) (tail : jsstring) :
  plain (href a) →
  (∀ o, obj a = Some o → plain (etag o)) →
  ∃ c, element "response" (buildPropResponse now a ++ tail) = Some (c, tail)
       ∧ readResponse c = Some (entryOf now a).
Proof.
  intros Hh He. unfold entryOf, buildPropResponse.
  destruct a as [h coll [o|]];
    cbn [href isCollection obj fmap option_fmap option_map] in *.
  - specialize (He o eq_refl).
    pose proof (toUTCString_plain (uploaded o)) as Hd.
    pose proof (pretty_N_plain (size o)) as Hs.
    revert Hd Hs He.
    generalize (toUTCString (uploaded o)) (js (pretty (size o))) (etag o).
    intros d len e Hd Hs He.
    destruct coll; unfold element; rewrite <-!(assoc_L (++)); literals; read_on;
      (eexists; split; [reflexivity|]);
      unfold readResponse, element; literals; read_on; rewrite !app_nil_r; reflexivity.
  - clear He. pose proof (toUTCString_plain now) as Hd.
    revert Hd. generalize (toUTCString now). intros d Hd.
    destruct coll; unfold element; rewrite <-!(assoc_L (++)); literals; read_on;
      (eexists; split; [reflexivity|]);
      unfold readResponse, element; literals; read_on; rewrite !app_nil_r; reflexivity.
Qed.

Lemma buildPropResponse_nonempty (now : Z) (a : PropArgs) :
  buildPropResponse now a ≠ [].
Proof. unfold buildPropResponse, nl. done. Qed.

Lemma read_entries (now : Z) (args : list PropArgs) (T : jsstring) (fuel : nat) :
  Forall plainArgs args →
  (length args ≤ fuel)%nat →
  element "response" T = None →
  readResponse <$> elements fuel "response"
                     (join nl (buildPropResponse now <$> args) ++ T)
  = (λ a, Some (entryOf now a)) <$> args.
Proof.
  intros Hargs. revert fuel.
  induction Hargs as [|a args [Hh He] _ IH]; intros fuel Hfuel HT.
  - cbn [fmap list_fmap join app]. destruct fuel; [done|].
    cbn [elements]. by rewrite HT.
  - destruct fuel as [|fuel]; [simpl in Hfuel; lia|].
    cbn [fmap list_fmap]. rewrite join_cons_app. cbn [elements].
    destruct (read_entry now a
                match buildPropResponse now <$> args with
                | [] => T
                | _ :: _ => nl ++ join nl (buildPropResponse now <$> args) ++ T
                end Hh He) as (c & -> & Hc).
    cbn [fmap list_fmap]. rewrite Hc. f_equal.
    destruct args as [|a' args].
    + cbn [fmap list_fmap]. destruct fuel; [done|]. cbn [elements]. by rewrite HT.
    + cbn [fmap list_fmap]. rewrite elements_skip_nl.
      apply IH; [simpl in *; lia | done].
Qed.

Lemma read_multistatus (now : Z) (args : list PropArgs) :
  Forall plainArgs args →
  readMultistatus (documentOf (multistatus (buildPropResponse now <$> args)))
  = (λ a, Some (entryOf now a)) <$> args.
Proof.
  intros Hargs. unfold readMultistatus, documentOf, multistatus.
  cbn [responseBody].
  set (T := nl ++ js "</d:multistatus>").
  set (rs := buildPropResponse now <$> args).
  assert (length args ≤ length (join nl rs))%nat as Hlen.
  { rewrite <-(length_fmap (buildPropResponse now) args). apply length_join.
    apply Forall_fmap, Forall_true. intros a. apply buildPropResponse_nonempty. }
  match goal with
  | |- context [elements ?n "response" ?doc] =>
      assert (length args ≤ n)%nat as Hfuel
        by (rewrite !length_app; lia);
      generalize dependent n
  end.
  intros fuel Hfuel. destruct fuel as [|fuel].
  { destruct args; [done | simpl in Hfuel; lia]. }
  assert (∀ s, element "response"
                 (js "<?xml version=" ++ quote ++ js "1.0" ++ quote ++
                  js " encoding=" ++ quote ++ js "UTF-8" ++ quote ++ js "?>" ++ nl ++
                  js "<d:multistatus xmlns:d=" ++ quote ++ js "DAV:" ++ quote ++
                  js ">" ++ nl ++ s)
               = element "response" s) as Hhead.
  { intros s. unfold element. literals. read_on.
    destruct (cut _ s) as [[??]|]; reflexivity. }
  assert (∀ f s, elements f "response"
                 (js "<?xml version=" ++ quote ++ js "1.0" ++ quote ++
                  js " encoding=" ++ quote ++ js "UTF-8" ++ quote ++ js "?>" ++ nl ++
                  js "<d:multistatus xmlns:d=" ++ quote ++ js "DAV:" ++ quote ++
                  js ">" ++ nl ++ s)
               = elements f "response" s) as Hheads.
  { intros [|f] s; [done|]. cbn [elements]. by rewrite Hhead. }
  rewrite Hheads. apply read_entries; [done | done |].
  subst T. unfold element. literals. reflexivity.
Qed.

(** What a client reads in the answer of the listing branch. *)
Lemma propfind_listing_read
    (env : Env) (path d base : jsstring) (request : Request) (w : World) :
  Depth request = Some d → d ≠ [] → d ≠ js "0" →
  URL_pathname (url request) = Some base →
  plain base →
  (∀ o, o ∈ listing (bucket w) (listPrefix path) → plain (etag o)) →
  ∃ r,
    handlePropfind env path request w = (inr r, called (CallList (listPrefix path)) w)
    ∧ status r = 207
    ∧ readMultistatus (documentOf r) =
        Some (collectionEntry (if endsWith base (js "/") then base else base ++ js "/")
                (clock w))
        :: ((λ o, Some (objectEntry
                          (URL_pathname_from (js "/zotero/" ++ key o) (url request)) o))
            <$> listing (bucket w) (listPrefix path)).
Proof.
  intros Hd Hne Hzero Hurl Hbase Hetags.
  rewrite (propfind_listing env path d base request w) by done.
  eexists. split; [reflexivity|]. split; [reflexivity|].
  unfold parentEntry, childEntry.
  set (args := {| href := if endsWith base (js "/") then base else base ++ js "/";
                  isCollection := true; obj := None |}
               :: ((λ o, {| href := URL_pathname_from (js "/zotero/" ++ key o) (url request);
                            isCollection := false; obj := Some o |})
                   <$> listing (bucket w) (listPrefix path))).
  transitivity (readMultistatus
                  (documentOf (multistatus (buildPropResponse (clock w) <$> args)))).
  { unfold args. by rewrite fmap_cons, <-list_fmap_compose. }
  rewrite read_multistatus.
  - unfold args. rewrite fmap_cons, <-list_fmap_compose. done.
  - unfold args. apply Forall_cons. split.
    + split; [|done]. cbn [href]. destruct (endsWith base (js "/")); [done|].
      apply plain_app; [done|]. unfold plain. change (js "/") with [47].
      by rewrite list_elem_of_singleton.
    + apply Forall_fmap, Forall_forall. intros o Ho. split.
      * apply URL_pathname_from_plain.
      * intros ? [= <-]. by apply Hetags.
Qed.

(** C8.  When the objects stored under the prefix [a/] are exactly [a/x]
    and [a/y], a PROPFIND with [Depth: 1] on the key [a] answers 207 with a
    document in which a client reads three entries: the entry of the
    parent, marked as a collection, then the entries of [a/x] and [a/y],
    not marked as collections and carrying their size and etag, in the
    order of the listing.  The texts put into the document hold no [<],
    as the pathname of a request and the etags of the store do. *)
Theorem propfind_depth1_two_children
    (env : Env) (base : jsstring) (request : Request) (sx sy : Stored) (w : World) :
  Depth request = Some (js "1") →
  URL_pathname (url request) = Some base →
  bucket w !! js "a/x" = Some sx →
  bucket w !! js "a/y" = Some sy →
  (∀ k, startsWith k (js "a/") = true → is_Some (bucket w !! k) →
        k = js "a/x" ∨ k = js "a/y") →
  plain base → plain (s_etag sx) → plain (s_etag sy) →
  ∃ r children,
    (handlePropfind env (js "a") request w).1 = inr r
    ∧ status r = 207
    ∧ length (readMultistatus (documentOf r)) = 3%nat
    ∧ readMultistatus (documentOf r) =
        Some (collectionEntry (if endsWith base (js "/") then base else base ++ js "/")
                (clock w))
        :: children
    ∧ children ≡ₚ
        [Some (objectEntry (URL_pathname_from (js "/zotero/a/x") (url request))
                 (toObject (js "a/x") sx));
         Some (objectEntry (URL_pathname_from (js "/zotero/a/y") (url request))
                 (toObject (js "a/y") sy))].
Proof.
  intros Hd Hurl Hx Hy Honly Hbase Hex Hey.
  assert (objectsUnder (bucket w) (js "a/")
          ≡ₚ [toObject (js "a/x") sx; toObject (js "a/y") sy]) as Hall.
  { apply NoDup_Permutation.
    - apply NoDup_objectsUnder.
    - apply NoDup_cons. split; [|apply NoDup_singleton].
      rewrite list_elem_of_singleton. intros Heq.
      by apply toObject_inj in Heq as [? _].
    - intros o. rewrite elem_of_objectsUnder. split.
      + intros (k & s & -> & Hk & Hp).
        destruct (Honly k Hp) as [-> | ->]; [by eexists | |];
          rewrite Hk in *; simplify_eq; set_solver.
      + intros Ho. apply elem_of_cons in Ho as [-> | Ho].
        * by exists (js "a/x"), sx.
        * apply list_elem_of_singleton in Ho as ->. by exists (js "a/y"), sy. }
  assert (listing (bucket w) (js "a/")
          ≡ₚ [toObject (js "a/x") sx; toObject (js "a/y") sy]) as Hperm.
  { rewrite <-Hall. apply listing_complete. by rewrite Hall; simpl; lia. }
  destruct (propfind_listing_read env (js "a") (js "1") base request w)
    as (r & Hr & Hstatus & Hread); try done.
  { change (listPrefix (js "a")) with (js "a/"). intros o. rewrite Hperm.
    intros [-> | ->%list_elem_of_singleton]%elem_of_cons; done. }
  change (listPrefix (js "a")) with (js "a/") in Hread.
  exists r. eexists. split; [by rewrite Hr|]. split; [done|].
  split; [|split; [exact Hread|]].
  - by rewrite Hread, length_cons, length_fmap, Hperm.
  - by rewrite Hperm.
Qed.

(** C10 (as the code has it).  When no more than 1000 stored objects
    have a key that starts with [p/], a PROPFIND with [Depth: 1] on the
    key [p] lists the prefix once and answers with a document in which a
    client reads, after the entry of the parent, one entry that is not
    marked as a collection for each listed object; every stored object
    whose key starts with [p/] is among them exactly once, however many
    further [/] its key has. *)
Theorem propfind_depth1_flat_descendants
    (env : Env) (p base : jsstring) (request : Request) (w : World) :
  Depth request = Some (js "1") →
  URL_pathname (url request) = Some base →
  plain base →
  (∀ k o, bucket w !! k = Some o → startsWith k (listPrefix p) = true →
          plain (s_etag o)) →
  (length (objectsUnder (bucket w) (listPrefix p)) ≤ 1000)%nat →
  ∃ r objs,
    handlePropfind env p request w = (inr r, called (CallList (listPrefix p)) w)
    ∧ readMultistatus (documentOf r) =
        Some (collectionEntry (if endsWith base (js "/") then base else base ++ js "/")
                (clock w))
        :: ((λ o, Some (objectEntry
                          (URL_pathname_from (js "/zotero/" ++ key o) (url request)) o))
            <$> objs)
    ∧ NoDup objs
    ∧ ∀ rest o, bucket w !! (p ++ js "/" ++ rest) = Some o →
                toObject (p ++ js "/" ++ rest) o ∈ objs.
Proof.
  intros Hd Hurl Hbase Hetags Hle.
  destruct (propfind_listing_read env p (js "1") base request w)
    as (r & Hr & _ & Hread); try done.
  { intros o (k & s & -> & Hk & Hp)%listing_elem_stored. by apply (Hetags k s). }
  exists r, (listing (bucket w) (listPrefix p)).
  split; [done|]. split; [done|]. split; [apply NoDup_listing |].
  intros rest o Hk. apply elem_of_listing; [done|]. exists (p ++ js "/" ++ rest), o.
  split_and!; [done | done |].
  unfold listPrefix. destruct (endsWith p (js "/")).
  - apply startsWith_app.
  - rewrite (assoc_L (++)). apply startsWith_app.
Qed.

End Documents.

End Properties.

(** * Further properties of the handlers *)

(** ** Keys with a leading slash *)

Lemma hexDigit_bound (c v : N) : hexDigit c = Some v → v < 16.
Proof.
  unfold hexDigit.
  destruct (N.leb_spec 48 c), (N.leb_spec c 57), (N.leb_spec 65 c),
    (N.leb_spec c 70), (N.leb_spec 97 c), (N.leb_spec c 102);
    simpl; intros; simplify_eq; lia.
Qed.

Lemma hexDigit_2 (c : N) : hexDigit c = Some 2 ↔ c = 50.
Proof.
  unfold hexDigit.
  destruct (N.leb_spec 48 c), (N.leb_spec c 57), (N.leb_spec 65 c),
    (N.leb_spec c 70), (N.leb_spec 97 c), (N.leb_spec c 102);
    simpl; split; intros; simplify_eq; try lia; f_equal; lia.
Qed.

Lemma hexDigit_15 (c : N) : hexDigit c = Some 15 ↔ c = 70 ∨ c = 102.
Proof.
  unfold hexDigit.
  destruct (N.leb_spec 48 c), (N.leb_spec c 57), (N.leb_spec 65 c),
    (N.leb_spec c 70), (N.leb_spec 97 c), (N.leb_spec c 102);
    simpl; split; intros; simplify_eq; try lia; f_equal; lia.
Qed.

Lemma parseEscape_inv (s rest : jsstring) (b : N) :
  parseEscape s = Some (b, rest) →
  ∃ h l x y, s = 37 :: h :: l :: rest ∧ hexDigit h = Some x
             ∧ hexDigit l = Some y ∧ b = 16 * x + y.
Proof.
  destruct s as [|c [|h [|l r]]]; simpl.
  - done.
  - destruct c as [|p]; [done|]. repeat (destruct p as [p|p|]; try done).
  - destruct c as [|p]; [done|]. repeat (destruct p as [p|p|]; try done).
  - destruct c as [|p]; [done|]. repeat (destruct p as [p|p|]; try done).
    destruct (hexDigit h) as [x|] eqn:Hh, (hexDigit l) as [y|] eqn:Hl; try done.
    intros [= <- <-]. by exists h, l, x, y.
Qed.

Lemma utf8CodePoint_lower (lead v : N) (conts : list N) :
  utf8CodePoint lead conts = Some v → 128 ≤ v.
Proof.
  unfold utf8CodePoint. destruct (forallb isContinuation conts); [|done].
  destruct conts as [|c1 [|c2 [|c3 [|c4 conts]]]]; try done; cbv zeta;
    case_match eqn:E; try done; intros [= <-];
    repeat (apply andb_true_iff in E as [E ?]); apply N.leb_le in E;
    cbn [fold_left] in E; lia.
Qed.

Lemma UTF16EncodeCodePoint_head (v : N) (tl : jsstring) :
  128 ≤ v → head (UTF16EncodeCodePoint v ++ tl) ≠ Some 47.
Proof.
  unfold UTF16EncodeCodePoint. destruct (v <=? 65535); simpl; intros Hv [= E].
  - lia.
  - pose proof (N.le_0_l ((v - 65536) / 1024)). lia.
Qed.

Lemma encoded_slash_prefix (s : jsstring) :
  js "%2F" `prefix_of` s ∨ js "%2f" `prefix_of` s ↔
  ∃ l rest, s = 37 :: 50 :: l :: rest ∧ (l = 70 ∨ l = 102).
Proof.
  split.
  - intros [[k ->] | [k ->]]; eexists _, k; (split; [reflexivity|]); [by left | by right].
  - intros (l & rest & -> & [-> | ->]); [left | right]; by exists rest.
Qed.

Lemma Decode_leading_slash (fuel : nat) (r k : jsstring) :
  head r ≠ Some 47 → Decode fuel r = Some k →
  (head k = Some 47 ↔ js "%2F" `prefix_of` r ∨ js "%2f" `prefix_of` r).
Proof.
  rewrite encoded_slash_prefix.
  destruct fuel as [|fuel]; [done|]. destruct r as [|c tl]; cbn [Decode head].
  - intros _ [= <-]. split; [done | intros (? & ? & ? & _); done].
  - intros Hc. destruct (N.eqb_spec c 37) as [->|Hne].
    + destruct (parseEscape (37 :: tl)) as [[b rest]|] eqn:Ep; [|done].
      apply parseEscape_inv in Ep as (h & l & x & y & [= ->] & Hh & Hl & ->).
      cbn [mbind option_bind].
      assert (16 * x + y = 47 ↔ h = 50 ∧ (l = 70 ∨ l = 102)) as Hslash.
      { rewrite <-hexDigit_2, <-hexDigit_15, Hh, Hl.
        apply hexDigit_bound in Hh, Hl. split.
        - intros ?. split; f_equal; lia.
        - intros [[= ->] [= ->]]. done. }
      destruct (leadingOnes (16 * x + y)) as [|[|n]] eqn:Hn.
      * destruct (Decode fuel rest); [|done]. intros [= <-]. cbn.
        split.
        -- intros [= E]. apply Hslash in E as [-> E]. by exists l, rest.
        -- intros (l' & rest' & [= -> -> ->] & E). f_equal. apply Hslash. done.
      * done.
      * assert (16 * x + y ≠ 47) as Hb.
        { intros E. rewrite E in Hn. done. }
        intros Hk. split.
        -- destruct n as [|[|[|n]]]; try done;
             (destruct (continuationBytes _ _) as [[conts rest']|]; [|done];
              cbn [mbind option_bind] in Hk;
              destruct (utf8CodePoint _ conts) as [v|] eqn:Hv; [|done];
              cbn [mbind option_bind] in Hk;
              destruct (Decode fuel rest'); [|done];
              injection Hk as <-; intros E;
              by apply UTF16EncodeCodePoint_head in E;
                [|by apply utf8CodePoint_lower in Hv]).
        -- intros (l' & rest' & [= -> -> ->] & E). exfalso. apply Hb, Hslash. done.
    + destruct (Decode fuel tl); [|done]. intros [= <-]. cbn. split.
      * congruence.
      * intros (? & ? & [= ? _] & _). done.
Qed.

(** X19.  The key a pathname resolves to begins with a slash exactly when
    what follows the namespace prefix and the raw slashes after it begins
    with the escape of a slash ([%2F] or [%2f]). *)
Theorem key_leading_slash_iff_encoded (pathname k : jsstring) :
  pathToKey pathname = Some k →
  let r := replaceLeadingSlashes (replacePrefix pathname (js "/zotero/")) in
  head k = Some 47 ↔ js "%2F" `prefix_of` r ∨ js "%2f" `prefix_of` r.
Proof.
  intros Hk r. apply (Decode_leading_slash (S (length r)) r k); [|done].
  apply replaceLeadingSlashes_no_slash.
Qed.

Section Handlers.
Context `{Platform} `{R2}.

(** ** The handlers case by case *)

Lemma fetch_cases (request : Request) (env : Env) (w : World) :
  fetch request env w =
    if authenticated request env then
      match URL_pathname (url request) with
      | None => (inl TypeError, w)
      | Some pathname =>
          if startsWith pathname (js "/zotero/") then
            match pathToKey pathname with
            | None => (inl URIError, w)
            | Some path => dispatch env path request w
            end
          else (inr {| responseBody := BodyText (js "Not Found"); status := 404;
                       headers := [] |}, w)
      end
    else (inr unauthorized, w).
Proof.
  destruct (authenticated request env) eqn:Hauth;
    [|by apply fetch_unauthenticated].
  unfold authenticated in Hauth. apply andb_true_iff in Hauth as [Ht Hc].
  unfold fetch. rewrite Ht, Hc. cbn [negb orb]. unfold bind, orThrow.
  destruct (URL_pathname (url request)) as [pathname|]; [|done]. cbn [ret].
  destruct (startsWith pathname (js "/zotero/")); [|done]. cbn [negb].
  destruct (pathToKey pathname); done.
Qed.

Lemma handleGetHead_cases (env : Env) (k m : jsstring) (w : World) :
  handleGetHead env k m w =
    (inr match bucket w !! k with
         | None => {| responseBody := BodyText (js "Not Found"); status := 404;
                      headers := [] |}
         | Some o =>
             {| responseBody := if strictEq m (js "HEAD") then BodyNull
                                else BodyStream (s_body o);
                status := 200;
                headers := [("Content-Length"%string,
                             js (pretty (N.of_nat (length (s_body o)))));
                            ("ETag"%string, s_etag o)] |}
         end,
     called (CallGet k) w).
Proof.
  unfold handleGetHead, BUCKET_get, bind, ret.
  destruct (bucket w !! k) as [o|]; [|done].
  destruct (strictEq m (js "HEAD")); done.
Qed.

Lemma handlePut_cases (env : Env) (k : jsstring) (request : Request) (w : World) :
  handlePut env k request w =
    if bodyLengthKnown request
    then (inr {| responseBody := BodyNull; status := 201; headers := [] |},
          {| bucket := <[k := {| s_body := requestBody request;
                                 s_etag := etagOf (requestBody request);
                                 s_uploaded := clock w; s_httpMetadata := [] |}]> (bucket w);
             clock := clock w; trace := trace w ++ [CallPut k (requestBody request)] |})
    else (inl TypeError, called (CallPut k (requestBody request)) w).
Proof. unfold handlePut, BUCKET_put, bind. by destruct (bodyLengthKnown request). Qed.

Lemma handleCopy_cases (env : Env) (s : jsstring) (request : Request) (w : World) :
  handleCopy env s request w =
    if truthy (Destination request) then
      match URL_pathname (default [] (Destination request)) with
      | None => (inl TypeError, w)
      | Some pathname =>
          if startsWith pathname (js "/zotero/") then
            match pathToKey pathname with
            | None => (inl URIError, w)
            | Some d =>
                match bucket w !! s with
                | None =>
                    (inr {| responseBody := BodyText (js "Not Found"); status := 404;
                            headers := [] |}, called (CallGet s) w)
                | Some o =>
                    (inr {| responseBody := BodyNull; status := 201; headers := [] |},
                     {| bucket := <[d := copyOf o w]> (bucket w); clock := clock w;
                        trace := trace w ++ [CallGet s; CallPut d (s_body o)] |})
                end
            end
          else (inr {| responseBody := BodyText (js "Forbidden"); status := 403;
                       headers := [] |}, w)
      end
    else (inr {| responseBody := BodyText (js "Bad Request"); status := 400;
                 headers := [] |}, w).
Proof.
  unfold handleCopy. destruct (truthy (Destination request)); [|done].
  cbn [negb]. unfold bind, orThrow.
  destruct (URL_pathname _) as [pathname|]; [|done]. cbn [ret].
  destruct (startsWith pathname (js "/zotero/")); [|done]. cbn [negb].
  destruct (pathToKey pathname) as [d|]; [|done]. cbn [ret].
  unfold BUCKET_get, BUCKET_put, called. cbn.
  destruct (bucket w !! s) as [o|]; [|done]. cbn.
  by rewrite <-!(assoc_L (++)).
Qed.

Lemma handleMove_cases (env : Env) (s : jsstring) (request : Request) (w : World) :
  handleMove env s request w =
    if truthy (Destination request) then
      match URL_pathname (default [] (Destination request)) with
      | None => (inl TypeError, w)
      | Some pathname =>
          if startsWith pathname (js "/zotero/") then
            match pathToKey pathname with
            | None => (inl URIError, w)
            | Some d =>
                match bucket w !! s with
                | None =>
                    (inr {| responseBody := BodyText (js "Not Found"); status := 404;
                            headers := [] |}, called (CallGet s) w)
                | Some o =>
                    (inr {| responseBody := BodyNull; status := 201; headers := [] |},
                     {| bucket := delete s (<[d := copyOf o w]> (bucket w));
                        clock := clock w;
                        trace := trace w ++ [CallGet s; CallPut d (s_body o);
                                             CallDelete s] |})
                end
            end
          else (inr {| responseBody := BodyText (js "Forbidden"); status := 403;
                       headers := [] |}, w)
      end
    else (inr {| responseBody := BodyText (js "Bad Request"); status := 400;
                 headers := [] |}, w).
Proof.
  unfold handleMove. destruct (truthy (Destination request)); [|done].
  cbn [negb]. unfold bind, orThrow.
  destruct (URL_pathname _) as [pathname|]; [|done]. cbn [ret].
  destruct (startsWith pathname (js "/zotero/")); [|done]. cbn [negb].
  destruct (pathToKey pathname) as [d|]; [|done]. cbn [ret].
  unfold BUCKET_get, BUCKET_put, BUCKET_delete, called. cbn.
  destruct (bucket w !! s) as [o|]; [|done]. cbn.
  by rewrite <-!(assoc_L (++)).
Qed.

(** Whether the handler takes the single-entry branch. *)
Lemma handlePropfind_cases (env : Env) (path : jsstring) (request : Request) (w : World) :
  handlePropfind env path request w =
    match URL_pathname (url request) with
    | None => (inl TypeError, w)
    | Some base =>
        if negb (truthy (Depth request)) || strictEq (default [] (Depth request)) (js "0")
        then
          match path with
          | [] => (inr (multistatus [selfEntry (clock w) base None]), w)
          | _ :: _ =>
              (inr (multistatus
                      [selfEntry (clock w) base (toObject path <$> bucket w !! path)]),
               called (CallGet path) w)
          end
        else
          (inr (multistatus
                  (parentEntry (clock w) base ::
                   (childEntry (clock w) request <$>
                      listing (bucket w) (listPrefix path)))),
           called (CallList (listPrefix path)) w)
    end.
Proof.
  destruct (URL_pathname (url request)) as [base|] eqn:Hurl.
  - destruct (truthy (Depth request)) eqn:Ht; cbn [negb orb].
    + destruct (Depth request) as [d|] eqn:Hd; [|done]. cbn [from_option id].
      unfold strictEq. case_bool_decide as Hz.
      * subst d. by apply propfind_single; [right|].
      * apply (propfind_listing env path d base); [done| |done..].
        intros ->. done.
    + by apply propfind_single; [left|].
  - unfold handlePropfind, bind, orThrow. by rewrite Hurl.
Qed.

(** ** Credentials *)

Lemma authenticated_inv (request : Request) (env : Env) :
  authenticated request env = true →
  ∃ e, Authorization request = Some (js "Basic " ++ e)
       ∧ atob e = Some (WEBDAV_USER env ++ 58 :: WEBDAV_PASS env)
       ∧ 58 ∉ WEBDAV_USER env.
Proof.
  unfold authenticated. destruct (Authorization request) as [a|]; [|done].
  intros [_ Hc]%andb_true_iff. cbn [from_option id] in Hc.
  destruct (decide (js "Basic " `prefix_of` a)) as [[e ->] | Hpre].
  - exists e. split; [done|]. rewrite checkAuth_basic in Hc.
    destruct (atob e) as [d|]; [|done].
    destruct (indexOf d 58) as [sep|] eqn:Hsep; [|done].
    apply indexOf_Some in Hsep as [Hd Hu].
    apply andb_true_iff in Hc as [Hu' Hp']. unfold strictEq in *.
    apply bool_decide_eq_true in Hu', Hp'.
    replace (sep + 1)%nat with (S sep) in Hp' by lia.
    rewrite <-Hu', <-Hp'. split; [by rewrite <-Hd | done].
  - unfold checkAuth in Hc. destruct (startsWith a (js "Basic ")) eqn:E; [|done].
    by apply startsWith_prefix in E.
Qed.

Lemma authenticated_intro (request : Request) (env : Env) (e : jsstring) :
  Authorization request = Some (js "Basic " ++ e) →
  atob e = Some (WEBDAV_USER env ++ 58 :: WEBDAV_PASS env) →
  58 ∉ WEBDAV_USER env →
  authenticated request env = true.
Proof.
  intros Ha He Hu. unfold authenticated. rewrite Ha.
  change (truthy (Some (js "Basic " ++ e))) with true.
  cbn [from_option id andb]. rewrite checkAuth_basic, He, indexOf_first by done.
  rewrite take_app_length.
  replace (length (WEBDAV_USER env) + 1)%nat with (S (length (WEBDAV_USER env))) by lia.
  rewrite drop_after_separator. unfold strictEq.
  by rewrite !bool_decide_eq_true_2.
Qed.

(** X1.  A request passes the credential check exactly when its
    [Authorization] header is [Basic ] followed by a text that [atob]
    decodes to the configured user, a colon and the configured password,
    and the configured user holds no colon (the split is at the first
    colon, so the password may hold some). *)
Theorem authenticated_exactly (request : Request) (env : Env) :
  authenticated request env = true ↔
  ∃ e, Authorization request = Some (js "Basic " ++ e)
       ∧ atob e = Some (WEBDAV_USER env ++ 58 :: WEBDAV_PASS env)
       ∧ 58 ∉ WEBDAV_USER env.
Proof.
  split; [apply authenticated_inv|].
  intros (e & Ha & He & Hu). by apply (authenticated_intro request env e).
Qed.

(** X2.  When the configured user name holds a colon, no request can pass
    the credential check: every request is answered with 401. *)
Theorem colon_in_user_rejects_all (request : Request) (env : Env) (w : World) :
  58 ∈ WEBDAV_USER env → fetch request env w = (inr unauthorized, w).
Proof.
  intros Hcolon. apply fetch_unauthenticated.
  destruct (authenticated request env) eqn:Hauth; [|done].
  apply authenticated_inv in Hauth as (e & _ & _ & Hu). done.
Qed.

(** ** Routing *)

Lemma dispatch_GET (env : Env) (path : jsstring) (request : Request) :
  method request = js "GET" →
  dispatch env path request = handleGetHead env path (js "GET").
Proof. intros Hm. unfold dispatch. by rewrite Hm. Qed.

Lemma dispatch_HEAD (env : Env) (path : jsstring) (request : Request) :
  method request = js "HEAD" →
  dispatch env path request = handleGetHead env path (js "HEAD").
Proof. intros Hm. unfold dispatch. by rewrite Hm. Qed.

Lemma dispatch_PUT (env : Env) (path : jsstring) (request : Request) :
  method request = js "PUT" →
  dispatch env path request = handlePut env path request.
Proof. intros Hm. unfold dispatch. by rewrite Hm. Qed.

Lemma dispatch_MOVE (env : Env) (path : jsstring) (request : Request) :
  method request = js "MOVE" →
  dispatch env path request = handleMove env path request.
Proof. intros Hm. unfold dispatch. by rewrite Hm. Qed.

Lemma dispatch_COPY (env : Env) (path : jsstring) (request : Request) :
  method request = js "COPY" →
  dispatch env path request = handleCopy env path request.
Proof. intros Hm. unfold dispatch. by rewrite Hm. Qed.

Lemma dispatch_DELETE (env : Env) (path : jsstring) (request : Request) :
  method request = js "DELETE" →
  dispatch env path request = handleDelete env path.
Proof. intros Hm. unfold dispatch. by rewrite Hm. Qed.

Lemma dispatch_MKCOL (env : Env) (path : jsstring) (request : Request) :
  method request = js "MKCOL" →
  dispatch env path request = handleMkcol env path.
Proof. intros Hm. unfold dispatch. by rewrite Hm. Qed.

Lemma dispatch_PROPFIND (env : Env) (path : jsstring) (request : Request) :
  method request = js "PROPFIND" →
  dispatch env path request = handlePropfind env path request.
Proof. intros Hm. unfold dispatch. by rewrite Hm. Qed.

Lemma dispatch_OPTIONS (env : Env) (path : jsstring) (request : Request) :
  method request = js "OPTIONS" →
  dispatch env path request = handleOptions.
Proof. intros Hm. unfold dispatch. by rewrite Hm. Qed.

Lemma dispatch_other (env : Env) (path : jsstring) (request : Request) :
  method request ∉ js <$> allowedMethods →
  dispatch env path request =
    ret {| responseBody := BodyText (js "Method Not Allowed"); status := 405;
           headers := [] |}.
Proof.
  intros Hm. unfold dispatch, strictEq.
  rewrite !bool_decide_eq_false_2; [done | intros E; apply Hm; rewrite E; set_solver ..].
Qed.

(** The nine routed methods, one by one. *)
Lemma dispatch_allowed (env : Env) (path : jsstring) (request : Request) :
  method request ∈ js <$> allowedMethods →
  dispatch env path request ∈
    [handleOptions; handleGetHead env path (js "GET");
     handleGetHead env path (js "HEAD"); handlePut env path request;
     handleDelete env path; handleMkcol env path;
     handlePropfind env path request; handleMove env path request;
     handleCopy env path request].
Proof.
  intros Hm. cbn [fmap list_fmap allowedMethods] in Hm.
  repeat (apply elem_of_cons in Hm as [Hm | Hm]); [..|by apply elem_of_nil in Hm].
  - rewrite dispatch_OPTIONS by done. set_solver.
  - rewrite dispatch_GET by done. set_solver.
  - rewrite dispatch_HEAD by done. set_solver.
  - rewrite dispatch_PUT by done. set_solver.
  - rewrite dispatch_DELETE by done. set_solver.
  - rewrite dispatch_MKCOL by done. set_solver.
  - rewrite dispatch_PROPFIND by done. set_solver.
  - rewrite dispatch_MOVE by done. set_solver.
  - rewrite dispatch_COPY by done. set_solver.
Qed.

(** What holds of every handler and of the 405 answer holds of the
    [switch]. *)
Lemma dispatch_elim (P : IO Response → Prop)
    (env : Env) (path : jsstring) (request : Request) :
  P handleOptions →
  P (handleGetHead env path (js "GET")) →
  P (handleGetHead env path (js "HEAD")) →
  P (handlePut env path request) →
  P (handleDelete env path) →
  P (handleMkcol env path) →
  P (handlePropfind env path request) →
  P (handleMove env path request) →
  P (handleCopy env path request) →
  P (ret {| responseBody := BodyText (js "Method Not Allowed"); status := 405;
            headers := [] |}) →
  P (dispatch env path request).
Proof.
  intros ? ? ? ? ? ? ? ? ? ?.
  destruct (decide (method request ∈ js <$> allowedMethods)) as [Hm|Hm].
  - apply dispatch_allowed with (env := env) (path := path) in Hm.
    repeat (apply elem_of_cons in Hm as [-> | Hm]); try done.
    by apply elem_of_nil in Hm.
  - by rewrite dispatch_other.
Qed.

(** X3.  A URIError comes from [decodeURIComponent] alone, on the path
    of the request or on the path of the [Destination], and both are
    decoded before the first bucket call: when the handler stops with a
    URIError, it has made no bucket call and the bucket is as it was. *)
Theorem uri_error_leaves_world (request : Request) (env : Env) (w : World) :
  (fetch request env w).1 = inl URIError → (fetch request env w).2 = w.
Proof.
  rewrite fetch_cases.
  destruct (authenticated request env); [|done].
  destruct (URL_pathname (url request)) as [pathname|]; [|done].
  destruct (startsWith pathname (js "/zotero/")); [|done].
  destruct (pathToKey pathname) as [path|]; [|done].
  revert w. apply dispatch_elim; intros w.
  - done.
  - by rewrite handleGetHead_cases.
  - by rewrite handleGetHead_cases.
  - rewrite handlePut_cases. by case_match.
  - done.
  - done.
  - rewrite handlePropfind_cases. by repeat case_match.
  - rewrite handleMove_cases. by repeat case_match.
  - rewrite handleCopy_cases. by repeat case_match.
  - done.
Qed.

(** X6.  The path is checked before the method is looked at: with valid
    credentials, a path outside [/zotero/] is answered with 404 and a
    path under it with a malformed percent escape makes the handler throw
    a URIError, for every method (OPTIONS, MKCOL and unknown methods
    included) and without any bucket call. *)
Theorem path_checked_before_method
    (request : Request) (env : Env) (pathname : jsstring) (w : World) :
  authenticated request env = true →
  URL_pathname (url request) = Some pathname →
  (¬ js "/zotero/" `prefix_of` pathname →
   fetch request env w =
     (inr {| responseBody := BodyText (js "Not Found"); status := 404; headers := [] |},
      w))
  ∧ (js "/zotero/" `prefix_of` pathname → pathToKey pathname = None →
     fetch request env w = (inl URIError, w)).
Proof.
  intros Hauth Hurl. rewrite fetch_cases, Hauth, Hurl.
  rewrite <-startsWith_prefix. split.
  - intros Hout. by apply not_true_is_false in Hout as ->.
  - by intros -> ->.
Qed.

(** X4.  GET, HEAD, MKCOL, PROPFIND and OPTIONS never change the bucket,
    whatever the rest of the request is. *)
Theorem reading_methods_keep_bucket (request : Request) (env : Env) (w : World) :
  method request ∈ js <$> readingMethods →
  bucket (fetch request env w).2 = bucket w.
Proof.
  intros Hm. rewrite fetch_cases. repeat case_match; try done.
  cbn [fmap list_fmap readingMethods] in Hm.
  repeat (apply elem_of_cons in Hm as [Hm | Hm]); [..|by apply elem_of_nil in Hm].
  - rewrite dispatch_GET by done. by rewrite handleGetHead_cases.
  - rewrite dispatch_HEAD by done. by rewrite handleGetHead_cases.
  - by rewrite dispatch_MKCOL.
  - rewrite dispatch_PROPFIND by done. rewrite handlePropfind_cases.
    repeat case_match; done.
  - by rewrite dispatch_OPTIONS.
Qed.

(** X5.  The [Allow] header of the OPTIONS answer names exactly the
    methods that are routed: for a request with valid credentials and a
    path that resolves to a key, the answer is 405 if and only if the
    method is not one of them. *)
Theorem allow_header_matches_routing
    (request : Request) (env : Env) (pathname path : jsstring) (w : World) :
  authenticated request env = true →
  URL_pathname (url request) = Some pathname →
  startsWith pathname (js "/zotero/") = true →
  pathToKey pathname = Some path →
  (∃ r, (handleOptions w).1 = inr r
        ∧ lookupHeader "Allow" (headers r)
          = Some (join (js ", ") (js <$> allowedMethods)))
  ∧ ((∃ r, (fetch request env w).1 = inr r ∧ status r = 405)
     ↔ method request ∉ js <$> allowedMethods).
Proof.
  intros Hauth Hurl Hin Hkey. split; [by eexists|].
  rewrite fetch_cases, Hauth, Hurl, Hin, Hkey. split.
  - intros (r & Hr & Hs) Hm.
    apply dispatch_allowed with (env := env) (path := path) in Hm.
    repeat (apply elem_of_cons in Hm as [Hm | Hm]); [..|by apply elem_of_nil in Hm];
      rewrite Hm in Hr.
    + by simplify_eq/=.
    + rewrite handleGetHead_cases in Hr. repeat case_match; by simplify_eq/=.
    + rewrite handleGetHead_cases in Hr. repeat case_match; by simplify_eq/=.
    + rewrite handlePut_cases in Hr. repeat case_match; by simplify_eq/=.
    + by simplify_eq/=.
    + by simplify_eq/=.
    + rewrite handlePropfind_cases in Hr. repeat case_match; by simplify_eq/=.
    + rewrite handleMove_cases in Hr. repeat case_match; by simplify_eq/=.
    + rewrite handleCopy_cases in Hr. repeat case_match; by simplify_eq/=.
  - intros Hm. rewrite dispatch_other by done. by eexists.
Qed.

Local Ltac no_calls :=
  exists []; rewrite app_nil_r; split; [done | simpl; lia].

(** X20.  One request makes at most three bucket calls, appended to the
    trace in the order they are made. *)
Theorem bucket_calls_bounded (request : Request) (env : Env) (w : World) :
  ∃ calls, trace (fetch request env w).2 = trace w ++ calls
           ∧ (length calls ≤ 3)%nat.
Proof.
  rewrite fetch_cases.
  destruct (authenticated request env); [|no_calls].
  destruct (URL_pathname (url request)) as [pathname|];
    [|no_calls].
  destruct (startsWith pathname (js "/zotero/"));
    [|no_calls].
  destruct (pathToKey pathname) as [path|]; [|no_calls].
  revert w. apply dispatch_elim; intros w.
  - no_calls.
  - rewrite handleGetHead_cases. eexists [_]. split; [reflexivity | simpl; lia].
  - rewrite handleGetHead_cases. eexists [_]. split; [reflexivity | simpl; lia].
  - rewrite handlePut_cases.
    case_match; eexists [_]; (split; [reflexivity | simpl; lia]).
  - eexists [_]. split; [reflexivity | simpl; lia].
  - no_calls.
  - rewrite handlePropfind_cases.
    repeat case_match;
      first [ no_calls
            | eexists [_]; split; [reflexivity | simpl; lia] ].
  - rewrite handleMove_cases.
    repeat case_match;
      first [ no_calls
            | eexists [_]; split; [reflexivity | simpl; lia]
            | eexists [_; _; _]; split; [reflexivity | simpl; lia] ].
  - rewrite handleCopy_cases.
    repeat case_match;
      first [ no_calls
            | eexists [_]; split; [reflexivity | simpl; lia]
            | eexists [_; _]; split; [reflexivity | simpl; lia] ].
  - no_calls.
Qed.

(** ** GET, HEAD, PUT and DELETE *)

Lemma handleDelete_cases (env : Env) (k : jsstring) (w : World) :
  handleDelete env k w =
    (inr {| responseBody := BodyNull; status := 204; headers := [] |},
     {| bucket := delete k (bucket w); clock := clock w;
        trace := trace w ++ [CallDelete k] |}).
Proof. reflexivity. Qed.

(** X7.  HEAD answers as GET does, with the same status and the same
    [Content-Length] and [ETag] headers, but without the content; both
    read the key once and leave the bucket as it was.  For a key that
    holds nothing both answer 404. *)
Theorem head_is_get_without_body (env : Env) (k : jsstring) (w : World) :
  let get := handleGetHead env k (js "GET") w in
  let head := handleGetHead env k (js "HEAD") w in
  get.2 = head.2
  ∧ bucket get.2 = bucket w
  ∧ trace get.2 = trace w ++ [CallGet k]
  ∧ match bucket w !! k with
    | Some o =>
        ∃ hs,
          get.1 = inr {| responseBody := BodyStream (s_body o); status := 200;
                         headers := hs |}
          ∧ head.1 = inr {| responseBody := BodyNull; status := 200; headers := hs |}
          ∧ lookupHeader "Content-Length" hs
            = Some (js (pretty (N.of_nat (length (s_body o)))))
          ∧ lookupHeader "ETag" hs = Some (s_etag o)
    | None => failsNotFound get.1 ∧ head.1 = get.1
    end.
Proof.
  cbv zeta. rewrite !handleGetHead_cases. split_and!; try done.
  destruct (bucket w !! k) as [o|].
  - by eexists.
  - split; [by eexists | done].
Qed.

(** X8.  A PUT whose body has a known length, on a key that an earlier
    PUT was made on, answers 201 and replaces the content: of the two PUTs
    only the second is left, and no other key changes.  A PUT whose body
    has no known length throws and leaves the bucket as it was. *)
Theorem put_overwrites_and_frames
    (env : Env) (k : jsstring) (first second : Request) (w : World) :
  bodyLengthKnown second = true →
  let w1 := (handlePut env k first w).2 in
  let w2 := (handlePut env k second w1).2 in
  (handlePut env k second w1).1
    = inr {| responseBody := BodyNull; status := 201; headers := [] |}
  ∧ returnsContent (handleGetHead env k (js "GET") w2).1 (requestBody second)
  ∧ bucket w2 = bucket (handlePut env k second w).2
  ∧ (∀ k', k' ≠ k → bucket w2 !! k' = bucket w !! k')
  ∧ (bodyLengthKnown first = false →
     (handlePut env k first w).1 = inl TypeError ∧ bucket w1 = bucket w).
Proof.
  intros Hknown. cbv zeta. rewrite !handlePut_cases, Hknown.
  destruct (bodyLengthKnown first); cbn [fst snd bucket clock called]; split_and!;
    try done.
  - apply get_content. cbn [bucket]. by rewrite lookup_insert_eq.
  - apply insert_insert_eq.
  - intros k' Hk. by rewrite !lookup_insert_ne.
  - apply get_content. cbn [bucket]. by rewrite lookup_insert_eq.
  - intros k' Hk. by rewrite !lookup_insert_ne.
Qed.

(** X9.  DELETE removes the object at its key and nothing else: a GET of
    the key then fails with NotFound, every other key is as it was, and
    so are the objects under the key taken as a collection. *)
Theorem delete_removes_only_the_key (env : Env) (k : jsstring) (w : World) :
  let w' := (handleDelete env k w).2 in
  failsNotFound (handleGetHead env k (js "GET") w').1
  ∧ (∀ k', k' ≠ k → bucket w' !! k' = bucket w !! k')
  ∧ (∀ rest, bucket w' !! (k ++ js "/" ++ rest) = bucket w !! (k ++ js "/" ++ rest)).
Proof.
  cbv zeta. rewrite handleDelete_cases. cbn [fst snd bucket]. split_and!.
  - apply get_absent. cbn [bucket]. apply lookup_delete_eq.
  - intros k' Hk. by rewrite lookup_delete_ne.
  - intros rest. rewrite lookup_delete_ne; [done|].
    intros E. apply (f_equal length) in E. rewrite !length_app in E.
    simpl in E. lia.
Qed.

(** ** MOVE and COPY *)

(** X10.  A MOVE or COPY whose destination is accepted but whose source
    key holds nothing answers 404 after one read of the source: nothing
    is written and nothing is deleted. *)
Theorem move_copy_missing_source
    (env : Env) (s d dest pathname : jsstring) (request : Request) (w : World) :
  bucket w !! s = None →
  Destination request = Some dest → dest ≠ [] →
  URL_pathname dest = Some pathname →
  startsWith pathname (js "/zotero/") = true →
  pathToKey pathname = Some d →
  handleMove env s request w =
    (inr {| responseBody := BodyText (js "Not Found"); status := 404; headers := [] |},
     called (CallGet s) w)
  ∧ handleCopy env s request w = handleMove env s request w.
Proof.
  intros Hs Hdest Hne Hurl Hin Hkey.
  rewrite handleMove_cases, handleCopy_cases, Hdest.
  destruct dest as [|c dest]; [done|]. cbn [truthy from_option id].
  by rewrite Hurl, Hin, Hkey, Hs.
Qed.

(** X11.  A MOVE or COPY that succeeds touches only its own keys: COPY
    changes the destination alone, MOVE the destination and the source.
    The copy carries the metadata of the source, and a MOVE writes the
    destination before it deletes the source. *)
Theorem move_copy_touch_only_their_keys
    (env : Env) (s d dest pathname : jsstring) (request : Request)
    (o : Stored) (w : World) :
  bucket w !! s = Some o →
  Destination request = Some dest → dest ≠ [] →
  URL_pathname dest = Some pathname →
  startsWith pathname (js "/zotero/") = true →
  pathToKey pathname = Some d →
  let moved := (handleMove env s request w).2 in
  let copied := (handleCopy env s request w).2 in
  (∀ k, k ≠ s → k ≠ d → bucket moved !! k = bucket w !! k)
  ∧ (∀ k, k ≠ d → bucket copied !! k = bucket w !! k)
  ∧ s_httpMetadata <$> bucket copied !! d = Some (s_httpMetadata o)
  ∧ trace moved = trace w ++ [CallGet s; CallPut d (s_body o); CallDelete s]
  ∧ trace copied = trace w ++ [CallGet s; CallPut d (s_body o)].
Proof.
  intros Hs Hdest Hne Hurl Hin Hkey. cbv zeta.
  rewrite handleMove_cases, handleCopy_cases, Hdest.
  destruct dest as [|c dest]; [done|]. cbn [truthy from_option id].
  rewrite Hurl, Hin, Hkey, Hs. cbn [fst snd bucket trace]. split_and!; try done.
  - intros k Hks Hkd. by rewrite lookup_delete_ne, lookup_insert_ne.
  - intros k Hkd. by rewrite lookup_insert_ne.
  - by rewrite lookup_insert_eq.
Qed.

(** X13.  Only the path of the [Destination] URL is used: two
    destinations with the same path, whatever their scheme and host, have
    the same effect. *)
Theorem destination_host_ignored
    (env : Env) (s dest1 dest2 : jsstring) (request : Request) (w : World) :
  dest1 ≠ [] → dest2 ≠ [] →
  URL_pathname dest1 = URL_pathname dest2 →
  handleMove env s (withDestination (Some dest1) request) w
    = handleMove env s (withDestination (Some dest2) request) w
  ∧ handleCopy env s (withDestination (Some dest1) request) w
    = handleCopy env s (withDestination (Some dest2) request) w.
Proof.
  intros Hne1 Hne2 Heq. rewrite !handleMove_cases, !handleCopy_cases.
  cbn [Destination withDestination].
  destruct dest1 as [|c1 dest1]; [done|]. destruct dest2 as [|c2 dest2]; [done|].
  cbn [truthy from_option id]. by rewrite Heq.
Qed.

(** X12.  MOVE is COPY followed by DELETE of the source: when the COPY of
    the same request answers 201, MOVE answers the same and leaves the
    world that a DELETE of the source after the COPY leaves; when the
    COPY answers anything else or throws, MOVE does exactly the same and
    deletes nothing. *)
Theorem move_is_copy_then_delete
    (env : Env) (s : jsstring) (request : Request) (w : World) :
  handleMove env s request w =
    match handleCopy env s request w with
    | (inr r, w1) =>
        if status r =? 201 then (inr r, (handleDelete env s w1).2) else (inr r, w1)
    | (inl e, w1) => (inl e, w1)
    end.
Proof.
  rewrite handleMove_cases, handleCopy_cases.
  destruct (truthy (Destination request)); [|done].
  destruct (URL_pathname _) as [pathname|]; [|done].
  destruct (startsWith pathname (js "/zotero/")); [|done].
  destruct (pathToKey pathname) as [d|]; [|done].
  destruct (bucket w !! s) as [o|]; [|done].
  rewrite handleDelete_cases. cbn [fst snd bucket trace clock status N.eqb Pos.eqb].
  by rewrite <-(assoc_L (++)).
Qed.

(** ** PROPFIND *)

(** X16.  On the empty key (the namespace root) the listed prefix is a
    single slash, so a PROPFIND with a [Depth] other than ["0"] reports
    only objects whose key begins with a slash: when no stored key does,
    the answer is the parent entry alone, whatever the bucket holds. *)
Theorem propfind_root_lists_slash_keys_only
    (env : Env) (d base : jsstring) (request : Request) (w : World) :
  Depth request = Some d → d ≠ [] → d ≠ js "0" →
  URL_pathname (url request) = Some base →
  (∀ k, is_Some (bucket w !! k) → head k ≠ Some 47) →
  handlePropfind env [] request w =
    (inr (multistatus [parentEntry (clock w) base]), called (CallList (js "/")) w).
Proof.
  intros Hd Hne Hzero Hurl Hkeys.
  rewrite (propfind_listing env [] d base request w) by done.
  assert (listing (bucket w) (listPrefix []) = []) as ->; [|done].
  apply elem_of_nil_inv. intros o Ho.
  apply listing_elem_stored in Ho as (k & s & _ & Hk & Hp).
  apply (Hkeys k); [by eexists|].
  apply startsWith_prefix in Hp as [rest ->]. done.
Qed.

Section Entries.
Context `{!PlatformTexts}.

(** What a client reads in the answer of the single-entry branch. *)
Lemma propfind_single_read
    (env : Env) (path base : jsstring) (request : Request) (w : World) :
  truthy (Depth request) = false ∨ Depth request = Some (js "0") →
  URL_pathname (url request) = Some base →
  plain base →
  (∀ o, bucket w !! path = Some o → plain (s_etag o)) →
  ∃ r,
    (handlePropfind env path request w).1 = inr r
    ∧ status r = 207
    ∧ readMultistatus (documentOf r) =
        [Some match path, bucket w !! path with
              | _ :: _, Some o => objectEntry base (toObject path o)
              | _, _ => collectionEntry base (clock w)
              end].
Proof.
  intros Hd Hurl Hbase Hetag.
  rewrite (propfind_single env path base request w) by done.
  assert (∀ a, plainArgs a →
               readMultistatus (documentOf (multistatus [buildPropResponse (clock w) a]))
               = [Some (entryOf (clock w) a)]) as Hone.
  { intros a Ha. apply (read_multistatus (clock w) [a]). by apply Forall_singleton. }
  destruct path as [|c path].
  - eexists. split; [reflexivity|]. split; [reflexivity|].
    unfold selfEntry. by rewrite Hone.
  - eexists. split; [reflexivity|]. split; [reflexivity|].
    unfold selfEntry. rewrite Hone.
    + by destruct (bucket w !! (c :: path)).
    + split; [done|]. cbn [obj]. intros o' Ho'.
      destruct (bucket w !! (c :: path)) as [o|]; [|done].
      injection Ho' as <-. by apply Hetag.
Qed.

(** X14.  A PROPFIND with [Depth: 0], or without a [Depth] header,
    answers 207 with a document in which a client reads exactly one
    entry, and never lists: for a key that holds an object the entry is
    not a collection and carries the size, the etag and the upload time of
    the object; for a key that holds nothing it is a collection; for the
    empty key the bucket is not even read. *)
Theorem propfind_depth0_entry
    (env : Env) (path base : jsstring) (request : Request) (w : World) :
  truthy (Depth request) = false ∨ Depth request = Some (js "0") →
  URL_pathname (url request) = Some base →
  plain base →
  (∀ o, bucket w !! path = Some o → plain (s_etag o)) →
  let res := handlePropfind env path request w in
  bucket res.2 = bucket w
  ∧ ∃ r,
      res.1 = inr r ∧ status r = 207
      ∧ match path, bucket w !! path with
        | [], _ =>
            readMultistatus (documentOf r) = [Some (collectionEntry base (clock w))]
            ∧ trace res.2 = trace w
        | _ :: _, Some o =>
            readMultistatus (documentOf r)
            = [Some (objectEntry base (toObject path o))]
            ∧ trace res.2 = trace w ++ [CallGet path]
        | _ :: _, None =>
            readMultistatus (documentOf r) = [Some (collectionEntry base (clock w))]
            ∧ trace res.2 = trace w ++ [CallGet path]
        end.
Proof.
  intros Hd Hurl Hbase Hetag. cbv zeta.
  destruct (propfind_single_read env path base request w)
    as (r & Hr & Hstatus & Hread); try done.
  rewrite (propfind_single env path base request w) in * by done.
  destruct path as [|c path].
  - split; [done|]. exists r. by rewrite Hread.
  - split; [done|]. exists r. rewrite Hread.
    by destruct (bucket w !! (c :: path)).
Qed.

(** X15.  With a [Depth] other than ["0"] a client reads, after the entry
    of the parent, children that are all stored objects whose key begins
    with the listed prefix, each at most once and no more than 1000 of
    them: the prefix is the path itself when it ends with a slash, the
    path and a slash otherwise.  In the second case no object stored at
    the path itself is among them. *)
Theorem propfind_lists_within_the_prefix
    (env : Env) (p d base : jsstring) (request : Request) (w : World) :
  Depth request = Some d → d ≠ [] → d ≠ js "0" →
  URL_pathname (url request) = Some base →
  plain base →
  (∀ k o, bucket w !! k = Some o → plain (s_etag o)) →
  ∃ r objs,
    (handlePropfind env p request w).1 = inr r
    ∧ readMultistatus (documentOf r) =
        Some (collectionEntry (if endsWith base (js "/") then base else base ++ js "/")
                (clock w))
        :: ((λ o, Some (objectEntry
                          (URL_pathname_from (js "/zotero/" ++ key o) (url request)) o))
            <$> objs)
    ∧ NoDup objs
    ∧ (length objs ≤ 1000)%nat
    ∧ (∀ o, o ∈ objs →
            ∃ k s, o = toObject k s ∧ bucket w !! k = Some s
                   ∧ (if endsWith p (js "/") then p else p ++ js "/") `prefix_of` k)
    ∧ (endsWith p (js "/") = false → ∀ o, o ∈ objs → key o ≠ p).
Proof.
  intros Hd Hne Hzero Hurl Hbase Hetags.
  destruct (propfind_listing_read env p d base request w)
    as (r & Hr & _ & Hread); try done.
  { intros o (k & s & -> & Hk & _)%listing_elem_stored. by apply (Hetags k s). }
  exists r, (listing (bucket w) (listPrefix p)). rewrite Hr.
  split_and!; [done | done | apply NoDup_listing | apply listing_limit | |].
  - intros o (k & s & -> & Hk & Hp)%listing_elem_stored.
    exists k, s. by rewrite <-startsWith_prefix.
  - intros Hend o (k & s & -> & _ & Hp)%listing_elem_stored Hkey.
    cbn in Hkey. subst k. unfold listPrefix in Hp. rewrite Hend in Hp.
    apply startsWith_prefix, prefix_length in Hp. rewrite length_app in Hp.
    simpl in Hp. lia.
Qed.

(** X17.  With a [Depth] other than ["0"] the target itself is reported
    as a collection without size or etag, and its key is never read: for
    an object stored at exactly that key a client reads, with [Depth: 0],
    one entry that is not a collection and carries the size and etag, and
    with [Depth: 1] a first entry that is a collection and carries
    neither. *)
Theorem depth1_reports_target_as_collection
    (env : Env) (path base : jsstring) (request : Request) (o : Stored) (w : World) :
  path ≠ [] →
  URL_pathname (url request) = Some base →
  bucket w !! path = Some o →
  plain base →
  (∀ k s, bucket w !! k = Some s → plain (s_etag s)) →
  let zero := handlePropfind env path (withDepth (Some (js "0")) request) w in
  let one := handlePropfind env path (withDepth (Some (js "1")) request) w in
  ∃ r0 r1 children,
    zero.1 = inr r0
    ∧ readMultistatus (documentOf r0) = [Some (objectEntry base (toObject path o))]
    ∧ one.1 = inr r1
    ∧ readMultistatus (documentOf r1) =
        Some (collectionEntry (if endsWith base (js "/") then base else base ++ js "/")
                (clock w))
        :: children
    ∧ trace one.2 = trace w ++ [CallList (listPrefix path)].
Proof.
  intros Hpath Hurl Ho Hbase Hetags. cbv zeta.
  destruct (propfind_single_read env path base (withDepth (Some (js "0")) request) w)
    as (r0 & Hr0 & _ & Hread0); try done.
  { by right. }
  { intros s. apply Hetags. }
  destruct (propfind_listing_read env path (js "1") base
              (withDepth (Some (js "1")) request) w)
    as (r1 & Hr1 & _ & Hread1); try done.
  { intros x (k & s & -> & Hk & _)%listing_elem_stored. by apply (Hetags k s). }
  exists r0, r1. eexists. rewrite Hr0, Hr1, Hread0, Hread1.
  destruct path as [|c path]; [done|]. rewrite Ho.
  split_and!; reflexivity.
Qed.

(** X18.  A PUT under [p/] shows in the next listing of [p], when that
    is no longer than one [list] call returns: a client reads an entry
    with the size and etag of what was written.  After a DELETE of that
    key no listed object has it. *)
Theorem put_and_delete_show_in_listing
    (env : Env) (p rest base : jsstring) (put request : Request) (w : World) :
  Depth request = Some (js "1") →
  URL_pathname (url request) = Some base →
  bodyLengthKnown put = true →
  plain base →
  plain (etagOf (requestBody put)) →
  (∀ k o, bucket w !! k = Some o → plain (s_etag o)) →
  let k := p ++ js "/" ++ rest in
  let w1 := (handlePut env k put w).2 in
  let w2 := (handleDelete env k w1).2 in
  let written :=
    {| key := k; size := N.of_nat (length (requestBody put));
       etag := etagOf (requestBody put); uploaded := clock w;
       body := requestBody put; httpMetadata := [] |} in
  ((length (objectsUnder (bucket w1) (listPrefix p)) ≤ 1000)%nat →
   ∃ r,
     (handlePropfind env p request w1).1 = inr r
     ∧ Some (objectEntry (URL_pathname_from (js "/zotero/" ++ k) (url request)) written)
       ∈ readMultistatus (documentOf r))
  ∧ (∃ r objs,
       (handlePropfind env p request w2).1 = inr r
       ∧ readMultistatus (documentOf r) =
           Some (collectionEntry
                   (if endsWith base (js "/") then base else base ++ js "/") (clock w2))
           :: ((λ o, Some (objectEntry
                             (URL_pathname_from (js "/zotero/" ++ key o) (url request)) o))
               <$> objs)
       ∧ ∀ o, o ∈ objs → key o ≠ k).
Proof.
  intros Hd Hurl Hknown Hbase Hetag Hetags. cbv zeta.
  rewrite handleDelete_cases, handlePut_cases, Hknown. cbn [fst snd].
  set (k := p ++ js "/" ++ rest).
  set (o := {| s_body := requestBody put; s_etag := etagOf (requestBody put);
               s_uploaded := clock w; s_httpMetadata := [] |}).
  split.
  - intros Hle.
    edestruct (propfind_listing_read env p (js "1") base request) as (r & Hr & _ & Hread);
      [done | done | done | done | done | | ].
    2:{ exists r. split; [by rewrite Hr|]. rewrite Hread.
        apply list_elem_of_further.
        apply (list_elem_of_fmap_2
                 (λ o, Some (objectEntry
                               (URL_pathname_from (js "/zotero/" ++ key o) (url request)) o))
                 _ (toObject k o)).
        apply elem_of_listing; [exact Hle|]. exists k, o.
        split_and!; [done | apply lookup_insert_eq |].
        unfold listPrefix, k. destruct (endsWith p (js "/")).
        - apply startsWith_app.
        - rewrite (assoc_L (++)). apply startsWith_app. }
    intros x (k' & s & -> & Hk & _)%listing_elem_stored. cbn [bucket] in Hk.
    apply lookup_insert_Some in Hk as [[_ <-] | [_ Hk]]; [done|].
    by apply (Hetags k' s).
  - edestruct (propfind_listing_read env p (js "1") base request) as (r & Hr & _ & Hread);
      [done | done | done | done | done | | ].
    2:{ exists r. eexists. split; [by rewrite Hr|]. split; [exact Hread|].
        intros x (k' & s & -> & Hk & _)%listing_elem_stored Hkey.
        cbn in Hkey. subst k'. cbn [bucket] in Hk.
        by rewrite lookup_delete_eq in Hk. }
    intros x (k' & s & -> & Hk & _)%listing_elem_stored. cbn [bucket] in Hk.
    apply lookup_delete_Some in Hk as [_ Hk].
    apply lookup_insert_Some in Hk as [[_ <-] | [_ Hk]]; [done|].
    by apply (Hetags k' s).
Qed.

End Entries.

End Handlers.

(** * The handler on the sample runtime *)

Import Sample.

Local Ltac computed := apply (bool_decide_unpack _); vm_compute; exact I.

Local Ltac plain_etags :=
  match goal with
  | |- ∀ k o, bucket ?w !! k = Some o → _ =>
      change (map_Forall (λ _ o, 60 ∉ s_etag o) (bucket w)); computed
  end.

Example fetch_get_stored :
  (fetch (Sample.request "GET" "https://dav.example/zotero/a") Sample.env
     (Sample.world {[ js "a" := Sample.stored [Byte.x01; Byte.x02] ]})).1
  = inr {| responseBody := BodyStream [Byte.x01; Byte.x02]; status := 200;
           headers := [("Content-Length"%string, js "2"); ("ETag"%string, js "2")] |}.
Proof. vm_compute. reflexivity. Qed.

Example fetch_outside_namespace :
  (fetch (Sample.request "GET" "https://dav.example/elsewhere/a") Sample.env
     (Sample.world ∅)).1
  = inr {| responseBody := BodyText (js "Not Found"); status := 404; headers := [] |}.
Proof. vm_compute. reflexivity. Qed.

Example fetch_unsupported_method :
  (fetch (Sample.request "PATCH" "https://dav.example/zotero/a") Sample.env
     (Sample.world ∅)).1
  = inr {| responseBody := BodyText (js "Method Not Allowed"); status := 405;
           headers := [] |}.
Proof. vm_compute. reflexivity. Qed.

Example fetch_malformed_escape :
  (fetch (Sample.request "GET" "https://dav.example/zotero/a%zz") Sample.env
     (Sample.world ∅)).1
  = inl URIError.
Proof. vm_compute. reflexivity. Qed.

Example fetch_put_encoded_slash :
  trace (fetch (Sample.request "PUT" "https://dav.example/zotero/%2Ffoo") Sample.env
           (Sample.world ∅)).2
  = [CallPut (js "/foo") []].
Proof. vm_compute. reflexivity. Qed.

(** ** Instances of the theorems *)

Lemma bad_credentials_unauthorized_witness :
  ∃ r, (fetch (withAuthorization (Some Sample.badAuth)
                 (Sample.request "PATCH" "https://dav.example/elsewhere/a"))
          Sample.env (Sample.world ∅)).1 = inr r
       ∧ status r = 401
       ∧ is_Some (lookupHeader "WWW-Authenticate" (headers r)).
Proof.
  apply (bad_credentials_unauthorized
           (withAuthorization (Some Sample.badAuth)
              (Sample.request "PATCH" "https://dav.example/elsewhere/a"))
           Sample.env (Sample.world ∅)).
  apply (rejected_mismatch Sample.env (js "dXNlcjp3cm9uZw==") (js "user") (js "wrong")).
  - vm_compute. reflexivity.
  - vm_compute. intros Hin. repeat (inversion Hin as [|? ? ? Hin']; clear Hin; rename Hin' into Hin).
  - vm_compute. discriminate.
Defined.

Lemma credentials_before_routing_witness :
  let request := withAuthorization (Some Sample.badAuth)
                   (Sample.request "PATCH" "https://dav.example/elsewhere/a") in
  let w := Sample.world {[ js "a" := Sample.stored [Byte.x01] ]} in
  fetch request Sample.env w = (inr unauthorized, w)
  ∧ status unauthorized = 401
  ∧ trace (fetch request Sample.env w).2 = trace w
  ∧ bucket (fetch request Sample.env w).2 = bucket w.
Proof.
  intros request w.
  apply (credentials_before_routing request Sample.env w).
  vm_compute. reflexivity.
Defined.

Lemma move_copy_refuse_destination_witness :
  let w := Sample.world {[ js "a" := Sample.stored [Byte.x01] ]} in
  let move := Sample.request "MOVE" "https://dav.example/zotero/a" in
  let outside := withDestination (Some (js "https://dav.example/private/a")) move in
  (∃ r, status r = 400
        ∧ handleMove Sample.env (js "a") move w = (inr r, w)
        ∧ handleCopy Sample.env (js "a") move w = (inr r, w))
  ∧ (∃ r, status r = 403
          ∧ handleMove Sample.env (js "a") outside w = (inr r, w)
          ∧ handleCopy Sample.env (js "a") outside w = (inr r, w)).
Proof.
  intros w move outside. split.
  - apply (move_copy_refuse_destination Sample.env (js "a") move 400 w).
    apply destination_missing. reflexivity.
  - apply (move_copy_refuse_destination Sample.env (js "a") outside 403 w).
    apply (destination_outside (js "https://dav.example/private/a") (js "/private/a")).
    + discriminate.
    + vm_compute. reflexivity.
    + vm_compute. reflexivity.
Defined.

(** C4 (as claimed) fails for a [Destination] that is a path alone: the
    path [/private/a] lies outside [/zotero/], but [new URL] rejects a
    text that is not an absolute URL, so MOVE and COPY throw a TypeError
    and answer nothing, where the claim has 403. *)
Lemma move_copy_unparsed_destination_throws :
  let w := Sample.world {[ js "a" := Sample.stored [Byte.x01] ]} in
  let request (m : string) :=
    withDestination (Some (js "/private/a"))
      (Sample.request m "https://dav.example/zotero/a") in
  URL_pathname (js "/private/a") = None
  ∧ handleMove Sample.env (js "a") (request "MOVE") w = (inl TypeError, w)
  ∧ handleCopy Sample.env (js "a") (request "COPY") w = (inl TypeError, w)
  ∧ fetch (request "MOVE") Sample.env w = (inl TypeError, w)
  ∧ fetch (request "COPY") Sample.env w = (inl TypeError, w).
Proof. intros w request. split_and!; vm_compute; reflexivity. Qed.



Lemma move_copy_content_witness :
  let w := Sample.world {[ js "a" := Sample.stored [Byte.x01] ]} in
  let request := withDestination (Some (js "https://dav.example/zotero/b"))
                   (Sample.request "MOVE" "https://dav.example/zotero/a") in
  let moved := handleMove Sample.env (js "a") request w in
  let copied := handleCopy Sample.env (js "a") request w in
  (copied.1 = inr {| responseBody := BodyNull; status := 201; headers := [] |}
   ∧ returnsContent (handleGetHead Sample.env (js "b") (js "GET") copied.2).1 [Byte.x01]
   ∧ returnsContent (handleGetHead Sample.env (js "a") (js "GET") copied.2).1 [Byte.x01])
  ∧ (js "a" ≠ js "b" →
     moved.1 = inr {| responseBody := BodyNull; status := 201; headers := [] |}
     ∧ returnsContent (handleGetHead Sample.env (js "b") (js "GET") moved.2).1 [Byte.x01]
     ∧ failsNotFound (handleGetHead Sample.env (js "a") (js "GET") moved.2).1).
Proof.
  intros w request.
  apply (move_copy_content Sample.env (js "a") (js "b")
           (js "https://dav.example/zotero/b") (js "/zotero/b") request
           (Sample.stored [Byte.x01]) w).
  - vm_compute. reflexivity.
  - reflexivity.
  - discriminate.
  - vm_compute. reflexivity.
  - vm_compute. reflexivity.
  - vm_compute. reflexivity.
Defined.

(** C3 (as claimed) fails when the destination resolves to the key of the
    source: the MOVE answers 201, but it writes the copy and then deletes
    that same key, so a GET of the destination finds nothing. *)
Lemma move_onto_itself_loses_content :
  let w := Sample.world {[ js "a" := Sample.stored [Byte.x01] ]} in
  let request := withDestination (Some (js "https://dav.example/zotero/a"))
                   (Sample.request "MOVE" "https://dav.example/zotero/a") in
  let moved := handleMove Sample.env (js "a") request w in
  s_body <$> bucket w !! js "a" = Some [Byte.x01]
  ∧ pathToKey (js "/zotero/a") = Some (js "a")
  ∧ moved.1 = inr {| responseBody := BodyNull; status := 201; headers := [] |}
  ∧ trace moved.2 = [CallGet (js "a"); CallPut (js "a") [Byte.x01]; CallDelete (js "a")]
  ∧ failsNotFound (handleGetHead Sample.env (js "a") (js "GET") moved.2).1
  ∧ ¬ returnsContent (handleGetHead Sample.env (js "a") (js "GET") moved.2).1 [Byte.x01].
Proof.
  intros w request moved.
  assert ((handleGetHead Sample.env (js "a") (js "GET") moved.2).1
          = inr {| responseBody := BodyText (js "Not Found"); status := 404;
                   headers := [] |}) as Hget by (vm_compute; reflexivity).
  split_and!; try (vm_compute; reflexivity).
  - rewrite Hget. by eexists.
  - rewrite Hget. intros (r & [= <-] & Hs & _). discriminate.
Qed.

Lemma propfind_other_depth_lists_witness :
  let w := Sample.world {[ js "a/x" := Sample.stored [Byte.x01] ]} in
  let request := withDepth (Some (js "infinity"))
                   (Sample.request "PROPFIND" "https://dav.example/zotero/a") in
  handlePropfind Sample.env (js "a") request w =
    handlePropfind Sample.env (js "a") (withDepth (Some (js "1")) request) w
  ∧ trace (handlePropfind Sample.env (js "a") request w).2 =
      trace w ++ [CallList (listPrefix (js "a"))]
  ∧ (handlePropfind Sample.env (js "a") request w).1 =
      inr (multistatus
             (parentEntry (clock w) (js "/zotero/a") ::
              (childEntry (clock w) request <$>
                 listing (bucket w) (listPrefix (js "a"))))).
Proof.
  intros w request.
  apply (propfind_other_depth_lists Sample.env (js "a") (js "infinity")
           (js "/zotero/a") request w).
  - reflexivity.
  - discriminate.
  - vm_compute. discriminate.
  - vm_compute. reflexivity.
Defined.

(** C1 (as claimed) fails for [Depth: infinity]: the prefix is listed and
    the answer has two entries, the parent and the object under it, where
    [Depth: 0] reads the one key and answers with a single entry. *)
Lemma propfind_infinity_is_not_depth_0 :
  let w := Sample.world {[ js "a/x" := Sample.stored [Byte.x01] ]} in
  let request := withDepth (Some (js "infinity"))
                   (Sample.request "PROPFIND" "https://dav.example/zotero/a") in
  let infinity := handlePropfind Sample.env (js "a") request w in
  let zero := handlePropfind Sample.env (js "a") (withDepth (Some (js "0")) request) w in
  js "infinity" ≠ js "0" ∧ js "infinity" ≠ js "1"
  ∧ infinity.1 =
      inr (multistatus
             [parentEntry 1000 (js "/zotero/a");
              childEntry 1000 request (toObject (js "a/x") (Sample.stored [Byte.x01]))])
  ∧ trace infinity.2 = [CallList (js "a/")]
  ∧ zero.1 = inr (multistatus [selfEntry 1000 (js "/zotero/a") None])
  ∧ trace zero.2 = [CallGet (js "a")]
  ∧ infinity.1 ≠ zero.1.
Proof.
  intros w request infinity zero.
  split_and!; try (vm_compute; reflexivity); vm_compute; discriminate.
Qed.

Lemma sample_only_two (k : jsstring) :
  let m : gmap jsstring Stored :=
    {[ js "a/x" := Sample.stored [Byte.x01];
       js "a/y" := Sample.stored [Byte.x02; Byte.x03];
       js "ab" := Sample.stored [] ]} in
  startsWith k (js "a/") = true → is_Some (m !! k) →
  k = js "a/x" ∨ k = js "a/y".
Proof.
  intros m Hp [o Ho]. subst m.
  apply lookup_insert_Some in Ho as [[<- _] | [_ Ho]]; [by left|].
  apply lookup_insert_Some in Ho as [[<- _] | [_ Ho]]; [by right|].
  apply lookup_singleton_Some in Ho as [<- _]. vm_compute in Hp. discriminate.
Qed.

Lemma propfind_depth1_two_children_witness :
  let w := Sample.world
             {[ js "a/x" := Sample.stored [Byte.x01];
                js "a/y" := Sample.stored [Byte.x02; Byte.x03];
                js "ab" := Sample.stored [] ]} in
  let request := withDepth (Some (js "1"))
                   (Sample.request "PROPFIND" "https://dav.example/zotero/a") in
  let base := js "/zotero/a" in
  let sx := Sample.stored [Byte.x01] in
  let sy := Sample.stored [Byte.x02; Byte.x03] in
  ∃ r children,
    (handlePropfind Sample.env (js "a") request w).1 = inr r
    ∧ status r = 207
    ∧ length (readMultistatus (documentOf r)) = 3%nat
    ∧ readMultistatus (documentOf r) =
        Some (collectionEntry (if endsWith base (js "/") then base else base ++ js "/")
                (clock w))
        :: children
    ∧ children ≡ₚ
        [Some (objectEntry (URL_pathname_from (js "/zotero/a/x") (url request))
                 (toObject (js "a/x") sx));
         Some (objectEntry (URL_pathname_from (js "/zotero/a/y") (url request))
                 (toObject (js "a/y") sy))].
Proof.
  intros w request base sx sy.
  apply (propfind_depth1_two_children Sample.env base request sx sy w).
  - reflexivity.
  - vm_compute. reflexivity.
  - vm_compute. reflexivity.
  - vm_compute. reflexivity.
  - exact sample_only_two.
  - computed.
  - computed.
  - computed.
Defined.

(** What a client reads in the text that the handler answers with. *)
Example propfind_depth1_document_read :
  let w := Sample.world
             {[ js "a/x" := Sample.stored [Byte.x01];
                js "a/y" := Sample.stored [Byte.x02; Byte.x03];
                js "ab" := Sample.stored [] ]} in
  let request := withDepth (Some (js "1"))
                   (Sample.request "PROPFIND" "https://dav.example/zotero/a") in
  let entry (h size : string) (collection : bool) (time : string) :=
    Some {| e_href := js h; e_collection := collection;
            e_length := if collection then None else Some (js size);
            e_etag := if collection then None else Some (quote ++ js size ++ quote);
            e_lastModified := js time |} in
  ∃ r, (fetch request Sample.env w).1 = inr r
       ∧ readMultistatus (documentOf r)
         = [entry "/zotero/a/" "" true "1000";
            entry "/zotero/a/y" "2" false "0";
            entry "/zotero/a/x" "1" false "0"].
Proof. intros w request entry. eexists. split; vm_compute; reflexivity. Qed.

Lemma propfind_depth1_flat_descendants_witness :
  let w := Sample.world
             {[ js "p/c/d" := Sample.stored [Byte.x01];
                js "p/x" := Sample.stored [Byte.x02];
                js "q" := Sample.stored [] ]} in
  let request := withDepth (Some (js "1"))
                   (Sample.request "PROPFIND" "https://dav.example/zotero/p") in
  let p := js "p" in
  let base := js "/zotero/p" in
  ∃ r objs,
    handlePropfind Sample.env p request w = (inr r, called (CallList (listPrefix p)) w)
    ∧ readMultistatus (documentOf r) =
        Some (collectionEntry (if endsWith base (js "/") then base else base ++ js "/")
                (clock w))
        :: ((λ o, Some (objectEntry
                          (URL_pathname_from (js "/zotero/" ++ key o) (url request)) o))
            <$> objs)
    ∧ NoDup objs
    ∧ ∀ rest o, bucket w !! (p ++ js "/" ++ rest) = Some o →
                toObject (p ++ js "/" ++ rest) o ∈ objs.
Proof.
  intros w request p base.
  apply (propfind_depth1_flat_descendants Sample.env p base request w).
  - reflexivity.
  - vm_compute. reflexivity.
  - computed.
  - intros k o Hk _. revert k o Hk. plain_etags.
  - vm_compute. lia.
Defined.

(** The grandchild [p/c/d] is listed next to the child [p/x], both as
    plain entries. *)
Example propfind_depth1_lists_grandchild :
  let w := Sample.world
             {[ js "p/c/d" := Sample.stored [Byte.x01];
                js "p/x" := Sample.stored [Byte.x02];
                js "q" := Sample.stored [] ]} in
  let request := withDepth (Some (js "1"))
                   (Sample.request "PROPFIND" "https://dav.example/zotero/p") in
  let parent := parentEntry 1000 (js "/zotero/p") in
  let grandchild :=
    childEntry 1000 request (toObject (js "p/c/d") (Sample.stored [Byte.x01])) in
  let child :=
    childEntry 1000 request (toObject (js "p/x") (Sample.stored [Byte.x02])) in
  (handlePropfind Sample.env (js "p") request w).1
    = inr (multistatus [parent; grandchild; child])
  ∨ (handlePropfind Sample.env (js "p") request w).1
    = inr (multistatus [parent; child; grandchild]).
Proof.
  intros w request parent grandchild child.
  first [left; vm_compute; reflexivity | right; vm_compute; reflexivity].
Qed.

(** C10 (as claimed) fails past the limit of one [list] call: with 1001
    objects stored under [p/] the listing holds 1000 of them and the
    handler does not ask for the rest, so the answer has the parent and
    1000 children, and the stored object [p/0] has no entry in it. *)
Lemma propfind_depth1_misses_object :
  let w := Sample.world (Sample.crowd 1001) in
  let request := withDepth (Some (js "1"))
                   (Sample.request "PROPFIND" "https://dav.example/zotero/p") in
  ∃ r,
    handlePropfind Sample.env (js "p") request w
      = (inr r, called (CallList (js "p/")) w)
    ∧ bucket w !! js "p/0" = Some (Sample.stored [])
    ∧ Forall (λ e : option Entry, e_href <$> e ≠ Some (js "/zotero/p/0"))
        (readMultistatus (documentOf r))
    ∧ length (objectsUnder (bucket w) (js "p/")) = 1001%nat
    ∧ length (readMultistatus (documentOf r)) = 1001%nat.
Proof.
  intros w request.
  destruct (propfind_listing_read Sample.env (js "p") (js "1") (js "/zotero/p") request w)
    as (r & Hr & _ & Hread).
  - reflexivity.
  - discriminate.
  - vm_compute. discriminate.
  - vm_compute. reflexivity.
  - computed.
  - intros o (k & s & -> & Hk & _)%listing_elem_stored. revert k s Hk. plain_etags.
  - exists r. split; [exact Hr|]. rewrite Hread. split_and!.
    + vm_compute. reflexivity.
    + computed.
    + vm_compute. reflexivity.
    + vm_compute. reflexivity.
Qed.

(** ** Instances of the further properties *)

Lemma key_leading_slash_iff_encoded_witness :
  let r := replaceLeadingSlashes (replacePrefix (js "/zotero///%2ffoo") (js "/zotero/")) in
  head (js "/foo") = Some 47 ↔ js "%2F" `prefix_of` r ∨ js "%2f" `prefix_of` r.
Proof.
  apply (key_leading_slash_iff_encoded (js "/zotero///%2ffoo") (js "/foo")).
  vm_compute. reflexivity.
Defined.

Lemma colon_in_user_rejects_all_witness :
  let env := {| WEBDAV_USER := js "us:er"; WEBDAV_PASS := js "secret" |} in
  let request :=
    withAuthorization (Some (js "Basic dXM6ZXI6c2VjcmV0"))
      (Sample.request "GET" "https://dav.example/zotero/a") in
  fetch request env (Sample.world ∅) = (inr unauthorized, Sample.world ∅).
Proof.
  intros env request.
  apply (colon_in_user_rejects_all request env (Sample.world ∅)).
  vm_compute. repeat constructor.
Defined.

Lemma uri_error_leaves_world_witness :
  let request := Sample.request "DELETE" "https://dav.example/zotero/a%zz" in
  let w := Sample.world {[ js "a%zz" := Sample.stored [Byte.x01] ]} in
  (fetch request Sample.env w).2 = w.
Proof.
  intros request w.
  apply (uri_error_leaves_world request Sample.env w).
  vm_compute. reflexivity.
Defined.

Lemma reading_methods_keep_bucket_witness :
  let request := withDepth (Some (js "1"))
                   (Sample.request "PROPFIND" "https://dav.example/zotero/a") in
  let w := Sample.world {[ js "a/x" := Sample.stored [Byte.x01] ]} in
  bucket (fetch request Sample.env w).2 = bucket w.
Proof.
  intros request w.
  apply (reading_methods_keep_bucket request Sample.env w).
  vm_compute. repeat constructor.
Defined.

Lemma allow_header_matches_routing_witness :
  let request := Sample.request "PATCH" "https://dav.example/zotero/a" in
  let w := Sample.world ∅ in
  (∃ r, (handleOptions w).1 = inr r
        ∧ lookupHeader "Allow" (headers r)
          = Some (join (js ", ") (js <$> allowedMethods)))
  ∧ ((∃ r, (fetch request Sample.env w).1 = inr r ∧ status r = 405)
     ↔ method request ∉ js <$> allowedMethods).
Proof.
  intros request w.
  apply (allow_header_matches_routing request Sample.env (js "/zotero/a") (js "a") w).
  - vm_compute. reflexivity.
  - vm_compute. reflexivity.
  - vm_compute. reflexivity.
  - vm_compute. reflexivity.
Defined.

Lemma path_checked_before_method_witness :
  let request := Sample.request "OPTIONS" "https://dav.example/zotero" in
  let w := Sample.world ∅ in
  (¬ js "/zotero/" `prefix_of` js "/zotero" →
   fetch request Sample.env w =
     (inr {| responseBody := BodyText (js "Not Found"); status := 404; headers := [] |},
      w))
  ∧ (js "/zotero/" `prefix_of` js "/zotero" → pathToKey (js "/zotero") = None →
     fetch request Sample.env w = (inl URIError, w)).
Proof.
  intros request w.
  apply (path_checked_before_method request Sample.env (js "/zotero") w).
  - vm_compute. reflexivity.
  - vm_compute. reflexivity.
Defined.

Lemma put_overwrites_and_frames_witness :
  let w := Sample.world {[ js "b" := Sample.stored [Byte.x03] ]} in
  let k := js "a" in
  let first :=
    withBody [Byte.x01] false (Sample.request "PUT" "https://dav.example/zotero/a") in
  let second :=
    withBody [Byte.x02] true (Sample.request "PUT" "https://dav.example/zotero/a") in
  let w1 := (handlePut Sample.env k first w).2 in
  let w2 := (handlePut Sample.env k second w1).2 in
  (handlePut Sample.env k second w1).1
    = inr {| responseBody := BodyNull; status := 201; headers := [] |}
  ∧ returnsContent (handleGetHead Sample.env k (js "GET") w2).1 (requestBody second)
  ∧ bucket w2 = bucket (handlePut Sample.env k second w).2
  ∧ (∀ k', k' ≠ k → bucket w2 !! k' = bucket w !! k')
  ∧ (bodyLengthKnown first = false →
     (handlePut Sample.env k first w).1 = inl TypeError ∧ bucket w1 = bucket w).
Proof.
  intros w k first second.
  apply (put_overwrites_and_frames Sample.env k first second w). reflexivity.
Defined.

Lemma move_copy_missing_source_witness :
  let w := Sample.world {[ js "b" := Sample.stored [Byte.x02] ]} in
  let request := withDestination (Some (js "https://dav.example/zotero/b"))
                   (Sample.request "MOVE" "https://dav.example/zotero/a") in
  handleMove Sample.env (js "a") request w =
    (inr {| responseBody := BodyText (js "Not Found"); status := 404; headers := [] |},
     called (CallGet (js "a")) w)
  ∧ handleCopy Sample.env (js "a") request w = handleMove Sample.env (js "a") request w.
Proof.
  intros w request.
  apply (move_copy_missing_source Sample.env (js "a") (js "b")
           (js "https://dav.example/zotero/b") (js "/zotero/b") request w).
  - vm_compute. reflexivity.
  - reflexivity.
  - discriminate.
  - vm_compute. reflexivity.
  - vm_compute. reflexivity.
  - vm_compute. reflexivity.
Defined.

Lemma move_copy_touch_only_their_keys_witness :
  let o := Sample.stored [Byte.x01] in
  let w := Sample.world {[ js "a" := o; js "c" := Sample.stored [Byte.x03] ]} in
  let request := withDestination (Some (js "https://dav.example/zotero/b"))
                   (Sample.request "MOVE" "https://dav.example/zotero/a") in
  let moved := (handleMove Sample.env (js "a") request w).2 in
  let copied := (handleCopy Sample.env (js "a") request w).2 in
  (∀ k, k ≠ js "a" → k ≠ js "b" → bucket moved !! k = bucket w !! k)
  ∧ (∀ k, k ≠ js "b" → bucket copied !! k = bucket w !! k)
  ∧ s_httpMetadata <$> bucket copied !! js "b" = Some (s_httpMetadata o)
  ∧ trace moved = trace w ++ [CallGet (js "a"); CallPut (js "b") (s_body o);
                              CallDelete (js "a")]
  ∧ trace copied = trace w ++ [CallGet (js "a"); CallPut (js "b") (s_body o)].
Proof.
  intros o w request.
  apply (move_copy_touch_only_their_keys Sample.env (js "a") (js "b")
           (js "https://dav.example/zotero/b") (js "/zotero/b") request o w).
  - vm_compute. reflexivity.
  - reflexivity.
  - discriminate.
  - vm_compute. reflexivity.
  - vm_compute. reflexivity.
  - vm_compute. reflexivity.
Defined.

Lemma destination_host_ignored_witness :
  let w := Sample.world {[ js "a" := Sample.stored [Byte.x01] ]} in
  let request := Sample.request "MOVE" "https://dav.example/zotero/a" in
  let here := js "https://dav.example/zotero/b" in
  let elsewhere := js "https://other.example/zotero/b" in
  handleMove Sample.env (js "a") (withDestination (Some here) request) w
    = handleMove Sample.env (js "a") (withDestination (Some elsewhere) request) w
  ∧ handleCopy Sample.env (js "a") (withDestination (Some here) request) w
    = handleCopy Sample.env (js "a") (withDestination (Some elsewhere) request) w.
Proof.
  intros w request here elsewhere.
  apply (destination_host_ignored Sample.env (js "a") here elsewhere request w).
  - discriminate.
  - discriminate.
  - vm_compute. reflexivity.
Defined.

Lemma propfind_depth0_entry_witness :
  let request := Sample.request "PROPFIND" "https://dav.example/zotero/a" in
  let w := Sample.world {[ js "a" := Sample.stored [Byte.x01] ]} in
  let path := js "a" in
  let base := js "/zotero/a" in
  let res := handlePropfind Sample.env path request w in
  bucket res.2 = bucket w
  ∧ ∃ r,
      res.1 = inr r ∧ status r = 207
      ∧ match path, bucket w !! path with
        | [], _ =>
            readMultistatus (documentOf r) = [Some (collectionEntry base (clock w))]
            ∧ trace res.2 = trace w
        | _ :: _, Some o =>
            readMultistatus (documentOf r)
            = [Some (objectEntry base (toObject path o))]
            ∧ trace res.2 = trace w ++ [CallGet path]
        | _ :: _, None =>
            readMultistatus (documentOf r) = [Some (collectionEntry base (clock w))]
            ∧ trace res.2 = trace w ++ [CallGet path]
        end.
Proof.
  intros request w path base.
  apply (propfind_depth0_entry Sample.env path base request w).
  - left. reflexivity.
  - vm_compute. reflexivity.
  - computed.
  - generalize path. plain_etags.
Defined.

Lemma propfind_lists_within_the_prefix_witness :
  let request := withDepth (Some (js "1"))
                   (Sample.request "PROPFIND" "https://dav.example/zotero/a") in
  let w := Sample.world {[ js "a" := Sample.stored [Byte.x01];
                           js "a/x" := Sample.stored [Byte.x02];
                           js "ab" := Sample.stored [] ]} in
  let p := js "a" in
  let base := js "/zotero/a" in
  ∃ r objs,
    (handlePropfind Sample.env p request w).1 = inr r
    ∧ readMultistatus (documentOf r) =
        Some (collectionEntry (if endsWith base (js "/") then base else base ++ js "/")
                (clock w))
        :: ((λ o, Some (objectEntry
                          (URL_pathname_from (js "/zotero/" ++ key o) (url request)) o))
            <$> objs)
    ∧ NoDup objs
    ∧ (length objs ≤ 1000)%nat
    ∧ (∀ o, o ∈ objs →
            ∃ k s, o = toObject k s ∧ bucket w !! k = Some s
                   ∧ (if endsWith p (js "/") then p else p ++ js "/") `prefix_of` k)
    ∧ (endsWith p (js "/") = false → ∀ o, o ∈ objs → key o ≠ p).
Proof.
  intros request w p base.
  apply (propfind_lists_within_the_prefix Sample.env p (js "1") base request w).
  - reflexivity.
  - discriminate.
  - vm_compute. discriminate.
  - vm_compute. reflexivity.
  - computed.
  - plain_etags.
Defined.

Lemma sample_no_slash_key (k : jsstring) :
  let m : gmap jsstring Stored :=
    {[ js "a" := Sample.stored [Byte.x01]; js "b/x" := Sample.stored [Byte.x02] ]} in
  is_Some (m !! k) → head k ≠ Some 47.
Proof.
  intros m [o Ho]. subst m.
  apply lookup_insert_Some in Ho as [[<- _] | [_ Ho]]; [done|].
  apply lookup_singleton_Some in Ho as [<- _]. done.
Qed.

Lemma propfind_root_lists_slash_keys_only_witness :
  let request := withDepth (Some (js "1"))
                   (Sample.request "PROPFIND" "https://dav.example/zotero/") in
  let w := Sample.world {[ js "a" := Sample.stored [Byte.x01];
                           js "b/x" := Sample.stored [Byte.x02] ]} in
  handlePropfind Sample.env [] request w =
    (inr (multistatus [parentEntry (clock w) (js "/zotero/")]),
     called (CallList (js "/")) w).
Proof.
  intros request w.
  apply (propfind_root_lists_slash_keys_only Sample.env (js "1") (js "/zotero/")
           request w).
  - reflexivity.
  - discriminate.
  - vm_compute. discriminate.
  - vm_compute. reflexivity.
  - exact sample_no_slash_key.
Defined.

Lemma depth1_reports_target_as_collection_witness :
  let request := Sample.request "PROPFIND" "https://dav.example/zotero/a" in
  let o := Sample.stored [Byte.x01] in
  let w := Sample.world {[ js "a" := o; js "a/x" := Sample.stored [Byte.x02] ]} in
  let path := js "a" in
  let base := js "/zotero/a" in
  let zero := handlePropfind Sample.env path (withDepth (Some (js "0")) request) w in
  let one := handlePropfind Sample.env path (withDepth (Some (js "1")) request) w in
  ∃ r0 r1 children,
    zero.1 = inr r0
    ∧ readMultistatus (documentOf r0) = [Some (objectEntry base (toObject path o))]
    ∧ one.1 = inr r1
    ∧ readMultistatus (documentOf r1) =
        Some (collectionEntry (if endsWith base (js "/") then base else base ++ js "/")
                (clock w))
        :: children
    ∧ trace one.2 = trace w ++ [CallList (listPrefix path)].
Proof.
  intros request o w path base.
  apply (depth1_reports_target_as_collection Sample.env path base request o w).
  - discriminate.
  - vm_compute. reflexivity.
  - vm_compute. reflexivity.
  - computed.
  - plain_etags.
Defined.

Lemma put_and_delete_show_in_listing_witness :
  let request := withDepth (Some (js "1"))
                   (Sample.request "PROPFIND" "https://dav.example/zotero/a") in
  let put :=
    withBody [Byte.x01] true (Sample.request "PUT" "https://dav.example/zotero/a/x") in
  let w := Sample.world {[ js "a/y" := Sample.stored [] ]} in
  let p := js "a" in
  let rest := js "x" in
  let base := js "/zotero/a" in
  let k := p ++ js "/" ++ rest in
  let w1 := (handlePut Sample.env k put w).2 in
  let w2 := (handleDelete Sample.env k w1).2 in
  let written :=
    {| key := k; size := N.of_nat (length (requestBody put));
       etag := etagOf (requestBody put); uploaded := clock w;
       body := requestBody put; httpMetadata := [] |} in
  ((length (objectsUnder (bucket w1) (listPrefix p)) ≤ 1000)%nat →
   ∃ r,
     (handlePropfind Sample.env p request w1).1 = inr r
     ∧ Some (objectEntry (URL_pathname_from (js "/zotero/" ++ k) (url request)) written)
       ∈ readMultistatus (documentOf r))
  ∧ (∃ r objs,
       (handlePropfind Sample.env p request w2).1 = inr r
       ∧ readMultistatus (documentOf r) =
           Some (collectionEntry
                   (if endsWith base (js "/") then base else base ++ js "/") (clock w2))
           :: ((λ o, Some (objectEntry
                             (URL_pathname_from (js "/zotero/" ++ key o) (url request)) o))
               <$> objs)
       ∧ ∀ o, o ∈ objs → key o ≠ k).
Proof.
  intros request put w p rest base.
  apply (put_and_delete_show_in_listing Sample.env p rest base put request w).
  - reflexivity.
  - vm_compute. reflexivity.
  - reflexivity.
  - computed.
  - computed.
  - plain_etags.
Defined.
